(** * SMTP integrator charm: the relation publisher of [src/charm.py]

    A shallow embedding of [SmtpIntegratorOperatorCharm]: the state snapshot
    the charm holds, the part of the Juju model its handlers touch (leadership,
    unit status, secret store, relations and their application databags), and
    the handlers themselves as computations in a state-and-exception monad
    over the charm instance.  Every primitive appends what it did to an effect
    log, so that statements about order ("grant before write", "secret before
    relation iteration") can be read off the log. *)

From Stdlib Require Import ZArith.
From stdpp Require Import gmap strings stringmap list fin_maps.

Local Open Scope Z_scope.

(** ** Data model *)

Definition VALID_LOG_LEVELS : list string :=
  ["info"; "debug"; "warning"; "error"; "critical"].

(** The attributes of [CharmState] that [charm.py] reads and writes.
    [password_id] is the only one the charm assigns to. *)
Module CharmState.
Record t : Type := mk {
  host : string;
  port : Z;
  user : option string;
  password : option string;
  password_id : option string;
  auth_type : string;
  transport_security : string;
  domain : option string
}.

(** [self._charm_state.password_id = v]: a plain attribute assignment. *)
Definition set_password_id (v : option string) (s : t) : t :=
  {| host := host s; port := port s; user := user s;
     password := password s; password_id := v;
     auth_type := auth_type s;
     transport_security := transport_security s;
     domain := domain s |}.
End CharmState.

(** [smtp.SmtpRelationData]: one class serves both payload shapes; a keyword
    the constructor call leaves out stays [None]. *)
Module SmtpRelationData.
Record t : Type := mk {
  host : string;
  port : Z;
  user : option string;
  password : option string;
  password_id : option string;
  auth_type : string;
  transport_security : string;
  domain : option string
}.
End SmtpRelationData.

#[global] Instance SmtpRelationData_eq_dec : EqDecision SmtpRelationData.t.
Proof. solve_decision. Defined.

Inductive Status : Type :=
  | ActiveStatus
  | MaintenanceStatus (message : string)
  | BlockedStatus (message : string).

(** A secret of the host's store: its fields and the relations that were
    granted read access to it. *)
Record Secret : Type := mkSecret {
  secret_content : list (string * string);
  secret_granted : gset nat
}.

(** What the primitives of the host runtime did, in order. *)
Inductive Effect : Type :=
  | AddSecret (id : string) (content : list (string * string))
  | Grant (id : string) (relation : nat)
  | UpdateRelationData (relation : nat) (data : SmtpRelationData.t).

(** The part of [self.model] (and of [self.unit], [self.app]) the charm uses.
    Relations are named by their numeric id. *)
Record Model : Type := mkModel {
  is_leader : bool;
  unit_status : Status;
  secrets : gmap string Secret;
  smtp_relations : list nat;
  smtp_legacy_relations : list nat;
  databags : gmap nat SmtpRelationData.t;
  log : list Effect
}.

(** The charm instance: [self._charm_state] and the model it is attached to. *)
Record Charm : Type := mkCharm {
  _charm_state : CharmState.t;
  model : Model
}.

Inductive Error : Type :=
  | SecretNotFoundError (id : string).

Inductive Result (A : Type) : Type :=
  | Ok (a : A)
  | Raise (e : Error).
Arguments Ok {A} a.
Arguments Raise {A} e.

(** ** The monad of handlers: state [Charm], exceptions [Error] *)

Definition M (A : Type) : Type := Charm -> Result (A * Charm).

Definition ret {A} (a : A) : M A := fun c => Ok (a, c).

Definition bind {A B} (m : M A) (k : A -> M B) : M B :=
  fun c => match m c with
           | Ok (a, c') => k a c'
           | Raise e => Raise e
           end.

Declare Scope charm_scope.
Delimit Scope charm_scope with charm.
Notation "x <~ m ;; k" := (bind m (fun x => k))
  (at level 100, m at next level, right associativity) : charm_scope.
Notation "m ;;; k" := (bind m (fun _ => k))
  (at level 100, right associativity) : charm_scope.
Local Open Scope charm_scope.

Definition get_charm_state : M CharmState.t :=
  fun c => Ok (_charm_state c, c).

Definition get_model : M Model := fun c => Ok (model c, c).

Definition put_model (m : Model) : M unit :=
  fun c => Ok (tt, {| _charm_state := _charm_state c; model := m |}).

Definition raise {A} (e : Error) : M A := fun _ => Raise e.

(** [for x in l: body(x)] *)
Fixpoint for_each {A} (l : list A) (body : A -> M unit) : M unit :=
  match l with
  | [] => ret tt
  | x :: l' => body x ;;; for_each l' body
  end.

(** Python truthiness of an [Optional[str]]: [None] and the empty string
    are false.  Returns the string when it is true. *)
Definition truthy (o : option string) : option string :=
  match o with
  | Some s => if decide (s = "") then None else Some s
  | None => None
  end.

(** ** Primitives of the host runtime *)

(** Each primitive is a change of the model, lifted to the monad. *)

Definition with_status (s : Status) (m : Model) : Model :=
  {| is_leader := is_leader m; unit_status := s; secrets := secrets m;
     smtp_relations := smtp_relations m;
     smtp_legacy_relations := smtp_legacy_relations m;
     databags := databags m; log := log m |}.

Definition with_secret
    (id : string) (content : list (string * string)) (m : Model) : Model :=
  {| is_leader := is_leader m; unit_status := unit_status m;
     secrets := <[id := mkSecret content ∅]> (secrets m);
     smtp_relations := smtp_relations m;
     smtp_legacy_relations := smtp_legacy_relations m;
     databags := databags m;
     log := log m ++ [AddSecret id content] |}.

Definition grant_to (relation : nat) (s : Secret) : Secret :=
  mkSecret (secret_content s) ({[relation]} ∪ secret_granted s).

Definition with_grant (id : string) (relation : nat) (m : Model) : Model :=
  {| is_leader := is_leader m; unit_status := unit_status m;
     secrets := alter (grant_to relation) id (secrets m);
     smtp_relations := smtp_relations m;
     smtp_legacy_relations := smtp_legacy_relations m;
     databags := databags m;
     log := log m ++ [Grant id relation] |}.

Definition with_data
    (relation : nat) (data : SmtpRelationData.t) (m : Model) : Model :=
  {| is_leader := is_leader m; unit_status := unit_status m;
     secrets := secrets m;
     smtp_relations := smtp_relations m;
     smtp_legacy_relations := smtp_legacy_relations m;
     databags := <[relation := data]> (databags m);
     log := log m ++ [UpdateRelationData relation data] |}.

(** [self.unit.status = s] *)
Definition set_status (s : Status) : M unit :=
  m <~ get_model ;; put_model (with_status s m).

(** [self.model.unit.is_leader()] *)
Definition unit_is_leader : M bool :=
  m <~ get_model ;; ret (is_leader m).

(** The identifier the store gives to the next secret. *)
Definition next_secret_id (m : Model) : string :=
  fresh_string "secret:" (secrets m).

(** [self.app.add_secret(content)], the secret store's
    [create(secret-fields) -> opaque id] of the host runtime.  The store picks
    an identifier that is not in use; the new secret has been granted to
    nobody. *)
Definition add_secret (content : list (string * string)) : M string :=
  m <~ get_model ;;
  let id := next_secret_id m in
  put_model (with_secret id content m) ;;;
  ret id.

(** [self.model.get_secret(id=...)] of the host runtime looks the secret up
    in the store and raises when there is none; the handle it returns is the
    identifier. *)
Definition get_secret (id : string) : M string :=
  m <~ get_model ;;
  match secrets m !! id with
  | Some _ => ret id
  | None => raise (SecretNotFoundError id)
  end.

(** [secret.grant(relation)], the secret store's [grant(id, relation) -> void]
    of the host runtime. *)
Definition grant (id : string) (relation : nat) : M unit :=
  m <~ get_model ;; put_model (with_grant id relation m).

(** Modelled from the spec: [SmtpProvides.update_relation_data] of the
    relation library (not among the sources) writes the payload into the
    relation's shared data; the databag of a relation holds the payload last
    written to it. *)
Definition update_relation_data
    (relation : nat) (data : SmtpRelationData.t) : M unit :=
  m <~ get_model ;; put_model (with_data relation data m).

(** [self.smtp.relations] and [self.smtp_legacy.relations] *)
Definition smtp_relations_of : M (list nat) :=
  m <~ get_model ;; ret (smtp_relations m).

Definition smtp_legacy_relations_of : M (list nat) :=
  m <~ get_model ;; ret (smtp_legacy_relations m).

(** ** The charm *)

Definition _get_legacy_smtp_data (st : CharmState.t) : SmtpRelationData.t :=
  {| SmtpRelationData.host := CharmState.host st;
     SmtpRelationData.port := CharmState.port st;
     SmtpRelationData.user := CharmState.user st;
     SmtpRelationData.password := CharmState.password st;
     SmtpRelationData.password_id := None;
     SmtpRelationData.auth_type := CharmState.auth_type st;
     SmtpRelationData.transport_security := CharmState.transport_security st;
     SmtpRelationData.domain := CharmState.domain st |}.

Definition _get_smtp_data (st : CharmState.t) : SmtpRelationData.t :=
  {| SmtpRelationData.host := CharmState.host st;
     SmtpRelationData.port := CharmState.port st;
     SmtpRelationData.user := CharmState.user st;
     SmtpRelationData.password := None;
     SmtpRelationData.password_id := CharmState.password_id st;
     SmtpRelationData.auth_type := CharmState.auth_type st;
     SmtpRelationData.transport_security := CharmState.transport_security st;
     SmtpRelationData.domain := CharmState.domain st |}.

Definition _update_saml_relation (relation : nat) : M unit :=
  st <~ get_charm_state ;;
  update_relation_data relation (_get_smtp_data st).

Definition _update_saml_legacy_relation (relation : nat) : M unit :=
  st <~ get_charm_state ;;
  update_relation_data relation (_get_legacy_smtp_data st).

Definition _update_relations : M unit :=
  leader <~ unit_is_leader ;;
  if negb leader then ret tt
  else
    rels <~ smtp_relations_of ;;
    for_each rels _update_saml_relation ;;;
    legacy <~ smtp_legacy_relations_of ;;
    for_each legacy _update_saml_legacy_relation.

Definition set_password_id (v : option string) : M unit :=
  fun c => Ok (tt, {| _charm_state :=
                        CharmState.set_password_id v (_charm_state c);
                      model := model c |}).

Definition _store_password_as_secret : M unit :=
  st <~ get_charm_state ;;
  match truthy (CharmState.password st) with
  | Some p =>
      id <~ add_secret [("password", p)] ;;
      set_password_id (Some id)
  | None => ret tt
  end.

Definition _on_config_changed : M unit :=
  set_status (MaintenanceStatus "Configuring charm") ;;;
  _store_password_as_secret ;;;
  _update_relations ;;;
  set_status ActiveStatus.

Definition _on_legacy_relation_created (relation : nat) : M unit :=
  leader <~ unit_is_leader ;;
  if negb leader then ret tt
  else _update_saml_legacy_relation relation.

Definition _on_relation_created (relation : nat) : M unit :=
  leader <~ unit_is_leader ;;
  if negb leader then ret tt
  else
    st <~ get_charm_state ;;
    match truthy (CharmState.password_id st) with
    | Some secret_id =>
        secret <~ get_secret secret_id ;;
        grant secret relation
    | None => ret tt
    end ;;;
    _update_saml_relation relation.

(** ** Construction and dispatch *)

Inductive RelationName : Type :=
  | DEFAULT_RELATION_NAME
  | LEGACY_RELATION_NAME.

Inductive Event : Type :=
  | RelationCreatedEvent (name : RelationName) (relation : nat)
  | ConfigChangedEvent.

(** The bound events of [self.on] that [__init__] observes. *)
Inductive EventSource : Type :=
  | relation_created (name : RelationName)
  | config_changed.

#[global] Instance RelationName_eq_dec : EqDecision RelationName.
Proof. solve_decision. Defined.
#[global] Instance EventSource_eq_dec : EqDecision EventSource.
Proof. solve_decision. Defined.

Definition source_of (ev : Event) : EventSource :=
  match ev with
  | RelationCreatedEvent name _ => relation_created name
  | ConfigChangedEvent => config_changed
  end.

(** The relation of a relation event ([event.relation]); a handler of
    relation events is only ever bound to a relation event. *)
Definition with_relation (h : nat -> M unit) (ev : Event) : M unit :=
  match ev with
  | RelationCreatedEvent _ relation => h relation
  | ConfigChangedEvent => ret tt
  end.

Definition Observer : Type := EventSource * (Event -> M unit).

(** [self.framework] delivering an event: every observer of its source runs,
    in the order of registration. *)
Definition emit (observers : list Observer) (ev : Event) : M unit :=
  for_each (filter (fun o => fst o = source_of ev) observers)
           (fun o => snd o ev).

Section Dispatch.

(** [charm_state.py] is not among the sources: the configuration the
    validator reads and [CharmState.from_charm] itself are taken as given.
    [inr msg] stands for raising [CharmConfigInvalidError] with [msg]. *)
Context {Config : Type}.
Variable from_charm : Config -> CharmState.t + string.

(** The constructor.  On an invalid configuration it sets the blocked
    status and returns before anything is observed. *)
Definition __init__ (config : Config) (m : Model)
    : Model * option (CharmState.t * list Observer) :=
  match from_charm config with
  | inr msg => (with_status (BlockedStatus msg) m, None)
  | inl st =>
      (m, Some (st,
         [ (relation_created LEGACY_RELATION_NAME,
              with_relation _on_legacy_relation_created);
           (relation_created DEFAULT_RELATION_NAME,
              with_relation _on_relation_created);
           (config_changed, fun _ => _on_config_changed) ]))
  end.

(** One reaction: the host runtime builds the charm for the notification
    and the framework delivers it. *)
Definition dispatch (config : Config) (ev : Event) (m : Model)
    : Result Model :=
  match __init__ config m with
  | (m1, None) => Ok m1
  | (m1, Some (st, observers)) =>
      match emit observers ev {| _charm_state := st; model := m1 |} with
      | Ok (_, c) => Ok (model c)
      | Raise e => Raise e
      end
  end.

(** A sequence of reactions, each under the configuration in force when it
    is delivered.  A reaction that raises fails as a whole and leaves the
    model as it was. *)
Fixpoint run (hooks : list (Config * Event)) (m : Model) : Model :=
  match hooks with
  | [] => m
  | (config, ev) :: rest =>
      match dispatch config ev m with
      | Ok m' => run rest m'
      | Raise _ => run rest m
      end
  end.

End Dispatch.

(** Modelled from the spec: the configuration surface that
    [CharmState.from_charm] of [charm_state.py] reads ([charm_state.py] is
    not among the sources). *)
Record Config : Type := mkConfig {
  config_host : string;
  config_port : Z;
  config_user : option string;
  config_password : option string;
  config_auth_type : string;
  config_transport_security : string;
  config_domain : option string
}.

Definition AUTH_TYPES : list string := ["none"; "plain"; "login"].
Definition TRANSPORT_SECURITIES : list string := ["none"; "starttls"; "tls"].

(** Modelled from the spec: the validator [CharmState.from_charm] of
    [charm_state.py], which is not among the sources.  The port must lie in
    the TCP range, [auth_type] and [transport_security] in their enumerations
    (of the former the specification lists none, plain and login); a valid
    configuration gives a snapshot with the same fields and no secret
    reference.  The specification does not give the text of the messages. *)
Definition from_charm_spec (c : Config) : CharmState.t + string :=
  if negb ((1 <=? config_port c) && (config_port c <=? 65535))%Z
  then inr "invalid configuration: port"
  else if negb (bool_decide (config_auth_type c ∈ AUTH_TYPES))
  then inr "invalid configuration: auth_type"
  else if negb (bool_decide
                  (config_transport_security c ∈ TRANSPORT_SECURITIES))
  then inr "invalid configuration: transport_security"
  else inl {| CharmState.host := config_host c;
              CharmState.port := config_port c;
              CharmState.user := config_user c;
              CharmState.password := config_password c;
              CharmState.password_id := None;
              CharmState.auth_type := config_auth_type c;
              CharmState.transport_security := config_transport_security c;
              CharmState.domain := config_domain c |}.

(** ** Observations on a model *)

(** Whether the relation may read the secret. *)
Definition has_access (m : Model) (id : string) (relation : nat) : bool :=
  match secrets m !! id with
  | Some s => bool_decide (relation ∈ secret_granted s)
  | None => false
  end.

Definition is_write (e : Effect) : bool :=
  match e with UpdateRelationData _ _ => true | _ => false end.

Definition is_grant (e : Effect) : bool :=
  match e with Grant _ _ => true | _ => false end.

Definition is_creation (e : Effect) : bool :=
  match e with AddSecret _ _ => true | _ => false end.

(** The model after the payload was written to each of the relations. *)
Definition with_data_all
    (relations : list nat) (data : SmtpRelationData.t) (m : Model) : Model :=
  foldl (fun m r => with_data r data m) m relations.

(** The charm and model after [_store_password_as_secret]. *)
Definition after_store (st : CharmState.t) (m : Model)
    : CharmState.t * Model :=
  match truthy (CharmState.password st) with
  | Some p =>
      let id := next_secret_id m in
      (CharmState.set_password_id (Some id) st,
       with_secret id [("password", p)] m)
  | None => (st, m)
  end.

(** The model after [_update_relations]. *)
Definition after_update (st : CharmState.t) (m : Model) : Model :=
  if is_leader m
  then with_data_all (smtp_legacy_relations m) (_get_legacy_smtp_data st)
         (with_data_all (smtp_relations m) (_get_smtp_data st) m)
  else m.

(** The charm and model after [_on_config_changed]. *)
Definition after_config_changed (st : CharmState.t) (m : Model)
    : CharmState.t * Model :=
  let sm :=
    after_store st (with_status (MaintenanceStatus "Configuring charm") m) in
  (sm.1, with_status ActiveStatus (after_update sm.1 sm.2)).

(** What a handler appended to the log, when it returns. *)
Definition effects_of (h : M unit) (c : Charm) : list Effect :=
  match h c with
  | Ok (_, c') => drop (length (log (model c))) (log (model c'))
  | Raise _ => []
  end.

Definition secrets_created (h : M unit) (c : Charm) : nat :=
  length (filter (fun e => is_creation e = true) (effects_of h c)).

(** The effects of the two halves of [_on_config_changed]. *)
Definition creation_effects (st : CharmState.t) (m : Model) : list Effect :=
  match truthy (CharmState.password st) with
  | Some p => [AddSecret (next_secret_id m) [("password", p)]]
  | None => []
  end.

Definition update_effects (st : CharmState.t) (m : Model) : list Effect :=
  if is_leader m
  then ((fun r => UpdateRelationData r (_get_smtp_data st))
          <$> smtp_relations m)
       ++ ((fun r => UpdateRelationData r (_get_legacy_smtp_data st))
             <$> smtp_legacy_relations m)
  else [].

(** The handler that [__init__] binds to an event. *)
Definition handler (ev : Event) : M unit :=
  match ev with
  | RelationCreatedEvent DEFAULT_RELATION_NAME r => _on_relation_created r
  | RelationCreatedEvent LEGACY_RELATION_NAME r =>
      _on_legacy_relation_created r
  | ConfigChangedEvent => _on_config_changed
  end.

Definition model_of (res : Result (unit * Charm)) : Result Model :=
  match res with
  | Ok (_, c) => Ok (model c)
  | Raise e => Raise e
  end.

(** One charm instance handling a sequence of events, as when a test harness
    keeps the instance, and with it the snapshot, between notifications.  A
    handler that raises leaves the instance as it was. *)
Fixpoint handle_all (events : list Event) (c : Charm) : Charm :=
  match events with
  | [] => c
  | ev :: rest =>
      match handler ev c with
      | Ok (_, c') => handle_all rest c'
      | Raise _ => handle_all rest c
      end
  end.

(** The relations whose databag a handler may write: the relation of a
    relation event, the listed relations of both endpoints otherwise. *)
Definition written_by (ev : Event) (m : Model) : list nat :=
  match ev with
  | RelationCreatedEvent _ r => [r]
  | ConfigChangedEvent => smtp_relations m ++ smtp_legacy_relations m
  end.

(** A logged effect is of one shape when, if it is a write, its payload
    carries the password or the secret reference but not both. *)
Definition one_shape (e : Effect) : Prop :=
  match e with
  | UpdateRelationData _ d =>
      SmtpRelationData.password d = None
      \/ SmtpRelationData.password_id d = None
  | _ => True
  end.

(** ** Fixtures *)

Definition scenario_config : Config :=
  {| config_host := "smtp.example.com"; config_port := 587;
     config_user := Some "u"; config_password := Some "p";
     config_auth_type := "plain"; config_transport_security := "starttls";
     config_domain := None |}.

Definition scenario_state : CharmState.t :=
  {| CharmState.host := "smtp.example.com"; CharmState.port := 587;
     CharmState.user := Some "u"; CharmState.password := Some "p";
     CharmState.password_id := None;
     CharmState.auth_type := "plain";
     CharmState.transport_security := "starttls";
     CharmState.domain := None |}.

Definition scenario_payload (id : string) : SmtpRelationData.t :=
  {| SmtpRelationData.host := "smtp.example.com";
     SmtpRelationData.port := 587;
     SmtpRelationData.user := Some "u";
     SmtpRelationData.password := None;
     SmtpRelationData.password_id := Some id;
     SmtpRelationData.auth_type := "plain";
     SmtpRelationData.transport_security := "starttls";
     SmtpRelationData.domain := None |}.

Definition scenario_legacy_payload : SmtpRelationData.t :=
  {| SmtpRelationData.host := "smtp.example.com";
     SmtpRelationData.port := 587;
     SmtpRelationData.user := Some "u";
     SmtpRelationData.password := Some "p";
     SmtpRelationData.password_id := None;
     SmtpRelationData.auth_type := "plain";
     SmtpRelationData.transport_security := "starttls";
     SmtpRelationData.domain := None |}.

(** A unit with one relation on each endpoint, nothing stored or written. *)
Definition initial_model (leader : bool) : Model :=
  {| is_leader := leader; unit_status := MaintenanceStatus "";
     secrets := ∅; smtp_relations := [1%nat];
     smtp_legacy_relations := [2%nat]; databags := ∅; log := [] |}.

Definition port_99999_config : Config :=
  {| config_host := "smtp.example.com"; config_port := 99999;
     config_user := Some "u"; config_password := Some "p";
     config_auth_type := "plain"; config_transport_security := "starttls";
     config_domain := None |}.

(** ** The statements that fail as worded *)

(** The invariant of the data model, as worded: once the reference is in the
    snapshot, the plaintext is not. *)
Definition password_cleared_on_conversion
    (st : CharmState.t) (m : Model) : Prop :=
  forall st' m',
    _store_password_as_secret (mkCharm st m) = Ok (tt, mkCharm st' m') ->
    is_Some (CharmState.password_id st') ->
    CharmState.password st' = None.

(** The condition of creation as worded: the password is present and the
    snapshot holds no reference to a secret yet. *)
Definition secret_created_iff_unstored
    (st : CharmState.t) (m : Model) : Prop :=
  secrets_created _on_config_changed (mkCharm st m) = 1%nat
  <-> is_Some (truthy (CharmState.password st))
      /\ CharmState.password_id st = None.

(** A snapshot whose password is already stored: it refers to a secret of the
    store that holds this very password. *)
Definition stored_state : CharmState.t :=
  CharmState.set_password_id (Some "secret:") scenario_state.

Definition stored_model : Model :=
  {| is_leader := true; unit_status := ActiveStatus;
     secrets := {[ "secret:" := mkSecret [("password", "p")] ∅ ]};
     smtp_relations := [1%nat]; smtp_legacy_relations := [2%nat];
     databags := ∅; log := [] |}.

(** * Properties *)

(** ** How the handlers run *)

Section Frame.
Variables (relations : list nat) (data : SmtpRelationData.t).

Lemma with_data_all_is_leader m :
  is_leader (with_data_all relations data m) = is_leader m.
Proof.
  revert m. induction relations as [|r rs IH]; intros m; [done|].
  simpl. by rewrite IH.
Qed.

Lemma with_data_all_unit_status m :
  unit_status (with_data_all relations data m) = unit_status m.
Proof.
  revert m. induction relations as [|r rs IH]; intros m; [done|].
  simpl. by rewrite IH.
Qed.

Lemma with_data_all_secrets m :
  secrets (with_data_all relations data m) = secrets m.
Proof.
  revert m. induction relations as [|r rs IH]; intros m; [done|].
  simpl. by rewrite IH.
Qed.

Lemma with_data_all_smtp_relations m :
  smtp_relations (with_data_all relations data m) = smtp_relations m.
Proof.
  revert m. induction relations as [|r rs IH]; intros m; [done|].
  simpl. by rewrite IH.
Qed.

Lemma with_data_all_smtp_legacy_relations m :
  smtp_legacy_relations (with_data_all relations data m)
  = smtp_legacy_relations m.
Proof.
  revert m. induction relations as [|r rs IH]; intros m; [done|].
  simpl. by rewrite IH.
Qed.

Lemma with_data_all_log m :
  log (with_data_all relations data m)
  = log m ++ ((fun r => UpdateRelationData r data) <$> relations).
Proof.
  revert m. induction relations as [|r rs IH]; intros m; simpl.
  - by rewrite app_nil_r.
  - rewrite IH. simpl. by rewrite <- app_assoc.
Qed.

Lemma with_data_all_databags m :
  databags (with_data_all relations data m)
  = foldl (fun b r => <[r := data]> b) (databags m) relations.
Proof.
  revert m. induction relations as [|r rs IH]; intros m; [done|].
  simpl. by rewrite IH.
Qed.

Lemma foldl_insert_lookup (b : gmap nat SmtpRelationData.t) r :
  foldl (fun b r => <[r := data]> b) b relations !! r
  = if decide (r ∈ relations) then Some data else b !! r.
Proof.
  revert b. induction relations as [|r' rs IH]; intros b; simpl.
  - destruct (decide (r ∈ [])) as [Hin|_]; [|done].
    by apply elem_of_nil in Hin.
  - rewrite IH.
    destruct (decide (r ∈ rs)) as [Hrs|Hrs],
             (decide (r ∈ r' :: rs)) as [Hin|Hin]; try done.
    + exfalso. apply Hin. by right.
    + apply elem_of_cons in Hin as [->|?]; [|done].
      apply lookup_insert_eq.
    + apply lookup_insert_ne. intros ->. apply Hin. by left.
Qed.

Lemma with_data_all_lookup m r :
  databags (with_data_all relations data m) !! r
  = if decide (r ∈ relations) then Some data else databags m !! r.
Proof. rewrite with_data_all_databags. apply foldl_insert_lookup. Qed.
End Frame.

Lemma for_each_update_saml_relation rels st m :
  for_each rels _update_saml_relation (mkCharm st m)
  = Ok (tt, mkCharm st (with_data_all rels (_get_smtp_data st) m)).
Proof.
  revert m. induction rels as [|r rs IH]; intros m; [done|].
  simpl. unfold bind at 1. simpl. apply IH.
Qed.

Lemma for_each_update_saml_legacy_relation rels st m :
  for_each rels _update_saml_legacy_relation (mkCharm st m)
  = Ok (tt, mkCharm st (with_data_all rels (_get_legacy_smtp_data st) m)).
Proof.
  revert m. induction rels as [|r rs IH]; intros m; [done|].
  simpl. unfold bind at 1. simpl. apply IH.
Qed.

Lemma _store_password_as_secret_run st m :
  _store_password_as_secret (mkCharm st m)
  = Ok (tt, mkCharm (after_store st m).1 (after_store st m).2).
Proof.
  unfold _store_password_as_secret, after_store, bind; simpl.
  by destruct (truthy (CharmState.password st)).
Qed.

Lemma _update_relations_run st m :
  _update_relations (mkCharm st m) = Ok (tt, mkCharm st (after_update st m)).
Proof.
  unfold _update_relations, after_update, bind; simpl.
  destruct (is_leader m); simpl; [|done].
  rewrite for_each_update_saml_relation. cbn [model].
  rewrite with_data_all_smtp_legacy_relations.
  apply for_each_update_saml_legacy_relation.
Qed.

Lemma _on_config_changed_run st m :
  _on_config_changed (mkCharm st m)
  = Ok (tt, mkCharm (after_config_changed st m).1
                    (after_config_changed st m).2).
Proof.
  unfold _on_config_changed. unfold bind at 1. simpl.
  unfold bind at 1. rewrite _store_password_as_secret_run.
  unfold bind at 1. rewrite _update_relations_run. done.
Qed.

Lemma truthy_Some o p : truthy o = Some p <-> o = Some p /\ p ≠ "".
Proof.
  unfold truthy. destruct o as [s|]; [|by split; [|intros []]].
  destruct (decide (s = "")) as [->|Hne]; split.
  - done.
  - by intros [[= <-] ?].
  - by intros [= <-].
  - by intros [[= <-] ?].
Qed.

Lemma next_secret_id_fresh m : secrets m !! next_secret_id m = None.
Proof. apply fresh_string_fresh. Qed.

Lemma after_store_log st m :
  log (after_store st m).2 = log m ++ creation_effects st m.
Proof.
  unfold after_store, creation_effects.
  destruct (truthy (CharmState.password st)); simpl; [done|].
  by rewrite app_nil_r.
Qed.

Lemma after_store_frame st m :
  is_leader (after_store st m).2 = is_leader m
  /\ smtp_relations (after_store st m).2 = smtp_relations m
  /\ smtp_legacy_relations (after_store st m).2 = smtp_legacy_relations m
  /\ databags (after_store st m).2 = databags m
  /\ unit_status (after_store st m).2 = unit_status m.
Proof.
  unfold after_store. by destruct (truthy (CharmState.password st)).
Qed.

Lemma after_update_log st m :
  log (after_update st m) = log m ++ update_effects st m.
Proof.
  unfold after_update, update_effects. destruct (is_leader m).
  - rewrite !with_data_all_log. by rewrite <- app_assoc.
  - by rewrite app_nil_r.
Qed.

Lemma after_update_secrets st m : secrets (after_update st m) = secrets m.
Proof.
  unfold after_update. destruct (is_leader m); [|done].
  by rewrite !with_data_all_secrets.
Qed.

Lemma with_data_all_with_status relations data s m :
  with_data_all relations data (with_status s m)
  = with_status s (with_data_all relations data m).
Proof.
  revert m. induction relations as [|r rs IH]; intros m; [done|].
  simpl. by rewrite <- IH.
Qed.

Lemma after_update_with_status st s m :
  after_update st (with_status s m) = with_status s (after_update st m).
Proof.
  unfold after_update; simpl. destruct (is_leader m); [|done].
  by rewrite !with_data_all_with_status.
Qed.

Lemma after_store_with_status st s m :
  after_store st (with_status s m)
  = ((after_store st m).1, with_status s (after_store st m).2).
Proof.
  unfold after_store. by destruct (truthy (CharmState.password st)).
Qed.

(** The status set on entry is overwritten on exit and nothing else depends
    on it. *)
Lemma after_config_changed_eq st m :
  after_config_changed st m
  = ((after_store st m).1,
     with_status ActiveStatus
       (after_update (after_store st m).1 (after_store st m).2)).
Proof.
  unfold after_config_changed. cbv zeta.
  rewrite after_store_with_status. simpl.
  by rewrite after_update_with_status.
Qed.

(** The result of a configuration-changed reaction, field by field. *)
Section ConfigChanged.
Variables (st : CharmState.t) (m : Model).

Lemma after_config_changed_state :
  (after_config_changed st m).1 = (after_store st m).1.
Proof. by rewrite after_config_changed_eq. Qed.

Lemma after_config_changed_unit_status :
  unit_status (after_config_changed st m).2 = ActiveStatus.
Proof. done. Qed.

Lemma after_config_changed_secrets :
  secrets (after_config_changed st m).2 = secrets (after_store st m).2.
Proof. rewrite after_config_changed_eq. apply after_update_secrets. Qed.

Lemma after_config_changed_log :
  log (after_config_changed st m).2
  = log m ++ creation_effects st m
      ++ update_effects (after_store st m).1 m.
Proof.
  rewrite after_config_changed_eq. simpl.
  destruct (after_store_frame st m) as (Hl & Hr & Hg & _ & _).
  rewrite after_update_log, after_store_log.
  rewrite <- app_assoc. unfold update_effects. by rewrite Hl, Hr, Hg.
Qed.

Lemma after_config_changed_databags_follower :
  is_leader m = false ->
  databags (after_config_changed st m).2 = databags m.
Proof.
  intros Hf. rewrite after_config_changed_eq. simpl.
  destruct (after_store_frame st m) as (Hl & _ & _ & Hd & _).
  unfold after_update. by rewrite Hl, Hf, Hd.
Qed.

Lemma after_config_changed_lookup_leader r :
  is_leader m = true ->
  databags (after_config_changed st m).2 !! r
  = if decide (r ∈ smtp_legacy_relations m)
    then Some (_get_legacy_smtp_data (after_store st m).1)
    else if decide (r ∈ smtp_relations m)
    then Some (_get_smtp_data (after_store st m).1)
    else databags m !! r.
Proof.
  intros Ht. rewrite after_config_changed_eq. simpl.
  destruct (after_store_frame st m) as (Hl & Hr & Hg & Hd & _).
  unfold after_update. rewrite Hl, Ht.
  by rewrite !with_data_all_lookup, Hr, Hg, Hd.
Qed.
End ConfigChanged.

Lemma effects_of_on_config_changed st m :
  effects_of _on_config_changed (mkCharm st m)
  = creation_effects st m ++ update_effects (after_store st m).1 m.
Proof.
  unfold effects_of. rewrite _on_config_changed_run. cbn [model].
  rewrite after_config_changed_log. apply drop_app_length.
Qed.

Lemma filter_creation_writes (f : nat -> SmtpRelationData.t) rels :
  filter (fun e => is_creation e = true)
         ((fun r => UpdateRelationData r (f r)) <$> rels) = [].
Proof.
  induction rels as [|r rs IH]; [done|].
  simpl. rewrite filter_cons_False; [done|]. simpl. discriminate.
Qed.

Lemma update_effects_no_creation st m :
  filter (fun e => is_creation e = true) (update_effects st m) = [].
Proof.
  unfold update_effects. destruct (is_leader m); [|done].
  rewrite filter_app.
  by rewrite (filter_creation_writes (fun _ => _get_smtp_data st)),
             (filter_creation_writes (fun _ => _get_legacy_smtp_data st)).
Qed.

Lemma update_effects_writes st m e :
  e ∈ update_effects st m ->
  exists r,
    (r ∈ smtp_relations m /\ e = UpdateRelationData r (_get_smtp_data st))
    \/ (r ∈ smtp_legacy_relations m
        /\ e = UpdateRelationData r (_get_legacy_smtp_data st)).
Proof.
  unfold update_effects. destruct (is_leader m).
  - intros [Hin|Hin]%elem_of_app;
      apply list_elem_of_fmap in Hin as (r & -> & Hr); eauto.
  - by intros ?%elem_of_nil.
Qed.

Lemma secrets_created_on_config_changed st m :
  secrets_created _on_config_changed (mkCharm st m)
  = length (creation_effects st m).
Proof.
  unfold secrets_created. rewrite effects_of_on_config_changed.
  rewrite filter_app, update_effects_no_creation, app_nil_r.
  unfold creation_effects. by destruct (truthy (CharmState.password st)).
Qed.

Example from_charm_spec_scenario :
  from_charm_spec scenario_config = inl scenario_state.
Proof. reflexivity. Qed.

Example from_charm_spec_port_99999 :
  from_charm_spec
    {| config_host := "smtp.example.com"; config_port := 99999;
       config_user := None; config_password := None;
       config_auth_type := "none"; config_transport_security := "none";
       config_domain := None |}
  = inr "invalid configuration: port".
Proof. reflexivity. Qed.

(** ** The password and its secret *)

(** C2, as worded, fails: storing the scenario's password records the
    reference and leaves the plaintext in the snapshot. *)
Lemma password_not_cleared_on_conversion :
  ~ password_cleared_on_conversion scenario_state (initial_model true).
Proof.
  intros H.
  specialize (H _ _ eq_refl (mk_is_Some _ _ eq_refl)). discriminate H.
Qed.

(** C2 (amended): when [_store_password_as_secret] converts a password into a
    secret reference, it assigns [password_id] and nothing else: the password
    stays in the snapshot next to the reference.  Only the current-shape
    payload built from that snapshot is free of the plaintext (it carries the
    reference); the legacy payload still carries the password. *)
Theorem password_kept_on_conversion st m p :
  truthy (CharmState.password st) = Some p ->
  let id := next_secret_id m in
  let st' := CharmState.set_password_id (Some id) st in
  _store_password_as_secret (mkCharm st m)
  = Ok (tt, mkCharm st' (with_secret id [("password", p)] m))
  /\ CharmState.password_id st' = Some id
  /\ CharmState.password st' = Some p
  /\ SmtpRelationData.password (_get_smtp_data st') = None
  /\ SmtpRelationData.password_id (_get_smtp_data st') = Some id
  /\ SmtpRelationData.password (_get_legacy_smtp_data st') = Some p.
Proof.
  intros Hp. rewrite _store_password_as_secret_run.
  unfold after_store. rewrite Hp. simpl.
  apply truthy_Some in Hp as [Hp _]. by rewrite Hp.
Qed.

Lemma password_kept_on_conversion_witness :
  truthy (CharmState.password scenario_state) = Some "p"
  /\ CharmState.password
       (CharmState.set_password_id
          (Some (next_secret_id (initial_model true))) scenario_state)
     = Some "p".
Proof.
  split; [reflexivity|].
  apply (password_kept_on_conversion scenario_state (initial_model true) "p").
  reflexivity.
Defined.

(** ** Secret creation in a configuration-changed reaction *)

(** C6, as worded, fails: the handler tests the password only, so a second
    secret is created for a password that is stored already. *)
Lemma secret_created_although_stored :
  ~ secret_created_iff_unstored stored_state stored_model.
Proof.
  intros [H _].
  assert (Hc : secrets_created _on_config_changed
                 (mkCharm stored_state stored_model) = 1%nat)
    by (vm_compute; reflexivity).
  destruct (H Hc) as [_ Hid]. discriminate Hid.
Qed.

(** C6 (amended): in a configuration-changed reaction a secret is created if
    and only if the password of the snapshot is present (not [None], not
    empty), whether or not a reference is recorded already; at most one secret
    is created; when one is, it is new to the store, it holds the password,
    and its reference is recorded in the snapshot. *)
Theorem secret_created_iff_password st m :
  let c := mkCharm st m in
  let id := next_secret_id m in
  (secrets_created _on_config_changed c = 1%nat
   <-> is_Some (truthy (CharmState.password st)))
  /\ (secrets_created _on_config_changed c <= 1)%nat
  /\ (forall p, truthy (CharmState.password st) = Some p ->
      exists st' m',
        _on_config_changed c = Ok (tt, mkCharm st' m')
        /\ effects_of _on_config_changed c !! 0%nat
           = Some (AddSecret id [("password", p)])
        /\ secrets m !! id = None
        /\ secrets m' !! id = Some (mkSecret [("password", p)] ∅)
        /\ CharmState.password_id st' = Some id).
Proof.
  cbv zeta. rewrite secrets_created_on_config_changed.
  split_and!.
  - unfold creation_effects.
    destruct (truthy (CharmState.password st)) as [p|]; simpl.
    + split; [by eexists|done].
    + split; [done|]. by intros [? ?].
  - unfold creation_effects.
    destruct (truthy (CharmState.password st)); simpl; lia.
  - intros p Hp. rewrite _on_config_changed_run.
    do 2 eexists. split; [done|].
    rewrite effects_of_on_config_changed, after_config_changed_secrets,
      after_config_changed_state.
    unfold creation_effects, after_store. rewrite Hp. simpl.
    split_and!; try done.
    + apply next_secret_id_fresh.
    + apply lookup_insert_eq.
Qed.

(** C10: on a unit that is not the leader, a configuration-changed
    notification with a password present still creates a secret holding it
    and still ends in the active status; no relation data is written. *)
Theorem follower_still_creates_secret st m p :
  is_leader m = false ->
  truthy (CharmState.password st) = Some p ->
  let id := next_secret_id m in
  exists st' m',
    _on_config_changed (mkCharm st m) = Ok (tt, mkCharm st' m')
    /\ secrets m !! id = None
    /\ secrets m' = <[id := mkSecret [("password", p)] ∅]> (secrets m)
    /\ log m' = log m ++ [AddSecret id [("password", p)]]
    /\ secrets_created _on_config_changed (mkCharm st m) = 1%nat
    /\ unit_status m' = ActiveStatus
    /\ databags m' = databags m.
Proof.
  intros Hf Hp id. rewrite _on_config_changed_run.
  do 2 eexists. split; [done|].
  rewrite after_config_changed_secrets, after_config_changed_log,
    secrets_created_on_config_changed,
    (after_config_changed_databags_follower _ _ Hf).
  unfold creation_effects, update_effects, after_store.
  rewrite Hp, Hf, app_nil_r. simpl.
  split_and!; try done. apply next_secret_id_fresh.
Qed.

Lemma follower_still_creates_secret_witness :
  exists st' m',
    _on_config_changed (mkCharm scenario_state (initial_model false))
    = Ok (tt, mkCharm st' m')
    /\ unit_status m' = ActiveStatus
    /\ secrets m' !! "secret:" = Some (mkSecret [("password", "p")] ∅).
Proof.
  destruct (follower_still_creates_secret
              scenario_state (initial_model false) "p" eq_refl eq_refl)
    as (st' & m' & Hrun & _ & Hsec & _ & _ & Hstatus & _).
  exists st', m'. split; [exact Hrun|]. split; [exact Hstatus|].
  rewrite Hsec. reflexivity.
Defined.

(** C5: in a configuration-changed reaction the secret is created, and its
    reference recorded in the snapshot, before the relations are iterated:
    in the log of the reaction every creation comes before every write, and
    every payload written is built from the snapshot that holds the new
    reference, so each current-shape payload carries it. *)
Theorem secret_before_relation_iteration st m :
  exists st' m' delta,
    _on_config_changed (mkCharm st m) = Ok (tt, mkCharm st' m')
    /\ log m' = log m ++ delta
    /\ (forall i j e1 e2,
          delta !! i = Some e1 -> is_creation e1 = true ->
          delta !! j = Some e2 -> is_write e2 = true -> (i < j)%nat)
    /\ (forall r d, UpdateRelationData r d ∈ delta ->
          d = _get_smtp_data st' \/ d = _get_legacy_smtp_data st')
    /\ (is_leader m = true -> forall r, r ∈ smtp_relations m ->
          UpdateRelationData r (_get_smtp_data st') ∈ delta)
    /\ (forall p, truthy (CharmState.password st) = Some p ->
          delta !! 0%nat
          = Some (AddSecret (next_secret_id m) [("password", p)])
          /\ CharmState.password_id st' = Some (next_secret_id m)
          /\ SmtpRelationData.password_id (_get_smtp_data st')
             = Some (next_secret_id m)).
Proof.
  rewrite _on_config_changed_run.
  exists (after_config_changed st m).1, (after_config_changed st m).2,
    (creation_effects st m ++ update_effects (after_store st m).1 m).
  rewrite after_config_changed_state.
  split; [done|]. split; [apply after_config_changed_log|].
  split_and!.
  - intros i j e1 e2 Hi Hc Hj Hw.
    apply lookup_app_Some in Hi as [Hi|[_ Hi]].
    + apply lookup_app_Some in Hj as [Hj|[Hlen _]].
      * exfalso. unfold creation_effects in Hj.
        destruct (truthy (CharmState.password st)); [|done].
        apply list_lookup_singleton_Some in Hj as [_ <-]. discriminate Hw.
      * apply lookup_lt_Some in Hi. lia.
    + exfalso. apply list_elem_of_lookup_2 in Hi.
      apply update_effects_writes in Hi as (r & [[_ ->]|[_ ->]]);
        discriminate Hc.
  - intros r d [Hin|Hin]%elem_of_app.
    + unfold creation_effects in Hin.
      destruct (truthy (CharmState.password st)); [|by apply elem_of_nil in Hin].
      apply list_elem_of_singleton in Hin. discriminate Hin.
    + apply update_effects_writes in Hin as (r' & [[_ [= _ ->]]|[_ [= _ ->]]]);
        auto.
  - intros Ht r Hr. apply elem_of_app. right.
    unfold update_effects. rewrite Ht. apply elem_of_app. left.
    by apply (list_elem_of_fmap_2 (fun r => UpdateRelationData r _)).
  - intros p Hp. unfold creation_effects, after_store. by rewrite Hp.
Qed.

(** ** The relation-created handlers and the dispatch *)

Lemma _on_legacy_relation_created_run r st m :
  _on_legacy_relation_created r (mkCharm st m)
  = Ok (tt, mkCharm st
              (if is_leader m then with_data r (_get_legacy_smtp_data st) m
               else m)).
Proof.
  unfold _on_legacy_relation_created, bind; simpl. by destruct (is_leader m).
Qed.

Lemma _on_relation_created_run r st m :
  _on_relation_created r (mkCharm st m)
  = if is_leader m then
      match truthy (CharmState.password_id st) with
      | Some id =>
          match secrets m !! id with
          | Some _ =>
              Ok (tt, mkCharm st (with_data r (_get_smtp_data st)
                                    (with_grant id r m)))
          | None => Raise (SecretNotFoundError id)
          end
      | None => Ok (tt, mkCharm st (with_data r (_get_smtp_data st) m))
      end
    else Ok (tt, mkCharm st m).
Proof.
  unfold _on_relation_created. unfold bind at 1. simpl.
  destruct (is_leader m); simpl; [|done].
  unfold bind at 1. unfold bind at 1. simpl.
  destruct (truthy (CharmState.password_id st)) as [id|]; [|done].
  unfold get_secret. unfold bind at 1. unfold bind at 1. simpl.
  by destruct (secrets m !! id).
Qed.

Section DispatchFacts.
Context {Config : Type}.
Variable from_charm : Config -> CharmState.t + string.

Lemma dispatch_valid config st ev m :
  from_charm config = inl st ->
  dispatch from_charm config ev m = model_of (handler ev (mkCharm st m)).
Proof.
  intros Hst. unfold dispatch, __init__. rewrite Hst.
  destruct ev as [[|] r|]; unfold emit, model_of; simpl; unfold bind;
    match goal with |- context [match ?h ?c with _ => _ end] =>
      by destruct (h c) as [[[] ?]|?] end.
Qed.

Lemma dispatch_invalid config msg ev m :
  from_charm config = inr msg ->
  dispatch from_charm config ev m = Ok (with_status (BlockedStatus msg) m).
Proof. intros Hst. unfold dispatch, __init__. by rewrite Hst. Qed.
End DispatchFacts.

(** ** Who may read a secret *)

Section Access.
Variables (id : string) (relation : nat).

Lemma has_access_with_status s m :
  has_access (with_status s m) id relation = has_access m id relation.
Proof. done. Qed.

Lemma has_access_with_data r d m :
  has_access (with_data r d m) id relation = has_access m id relation.
Proof. done. Qed.

Lemma has_access_with_data_all rels d m :
  has_access (with_data_all rels d m) id relation
  = has_access m id relation.
Proof. unfold has_access. by rewrite with_data_all_secrets. Qed.

Lemma has_access_with_secret id' content m :
  secrets m !! id' = None ->
  has_access (with_secret id' content m) id relation
  = has_access m id relation.
Proof.
  intros Hfresh. unfold has_access; simpl.
  destruct (decide (id' = id)) as [->|Hne].
  - rewrite lookup_insert_eq, Hfresh. simpl.
    apply bool_decide_eq_false. apply not_elem_of_empty.
  - by rewrite lookup_insert_ne.
Qed.

Lemma has_access_with_grant_ne id' r m :
  r ≠ relation ->
  has_access (with_grant id' r m) id relation = has_access m id relation.
Proof.
  intros Hne. unfold has_access; simpl. rewrite lookup_alter.
  destruct (decide (id' = id)) as [->|?]; [|done].
  destruct (secrets m !! id) as [s|]; simpl; [|done].
  apply bool_decide_ext. rewrite elem_of_union, elem_of_singleton.
  split; [|by right]. by intros [->|?].
Qed.

Lemma has_access_with_grant_eq m :
  is_Some (secrets m !! id) ->
  has_access (with_grant id relation m) id relation = true.
Proof.
  intros [s Hs]. unfold has_access; simpl.
  rewrite lookup_alter, decide_True, Hs by done. simpl.
  apply bool_decide_eq_true. apply elem_of_union_l. by apply elem_of_singleton.
Qed.

Lemma has_access_after_store st m :
  has_access (after_store st m).2 id relation = has_access m id relation.
Proof.
  unfold after_store. destruct (truthy (CharmState.password st)); [|done].
  apply has_access_with_secret, next_secret_id_fresh.
Qed.

Lemma has_access_after_update st m :
  has_access (after_update st m) id relation = has_access m id relation.
Proof. unfold has_access. by rewrite after_update_secrets. Qed.

Lemma has_access_after_config_changed st m :
  has_access (after_config_changed st m).2 id relation
  = has_access m id relation.
Proof.
  rewrite after_config_changed_eq. simpl.
  rewrite has_access_with_status, has_access_after_update.
  apply has_access_after_store.
Qed.
End Access.

(** ** Relation-created notifications on the leader *)

(** C7: on a current-version relation-created notification handled by the
    leader with a secret reference in the snapshot, the relation is granted
    read access to the referenced secret and then the current-shape payload,
    which carries [password_id] and no password, is written into that
    relation, in this order.  The handler returns whenever the store has the
    referenced secret; with a reference to no secret of the store the lookup
    raises before anything is granted or written. *)
Theorem relation_created_grants_then_writes st m r id :
  is_leader m = true ->
  truthy (CharmState.password_id st) = Some id ->
  (is_Some (secrets m !! id) ->
   exists m',
     _on_relation_created r (mkCharm st m) = Ok (tt, mkCharm st m')
     /\ log m' = log m ++ [Grant id r;
                           UpdateRelationData r (_get_smtp_data st)]
     /\ has_access m' id r = true
     /\ databags m' !! r = Some (_get_smtp_data st))
  /\ (secrets m !! id = None ->
      _on_relation_created r (mkCharm st m) = Raise (SecretNotFoundError id))
  /\ SmtpRelationData.password_id (_get_smtp_data st) = Some id
  /\ SmtpRelationData.password (_get_smtp_data st) = None.
Proof.
  intros Hl Hid. rewrite _on_relation_created_run, Hl, Hid.
  split_and!.
  - intros [s Hs]. rewrite Hs. eexists. split; [done|]. simpl.
    split_and!.
    + by rewrite <- app_assoc.
    + rewrite has_access_with_data. by apply has_access_with_grant_eq.
    + apply lookup_insert_eq.
  - by intros ->.
  - simpl. by apply truthy_Some in Hid as [-> _].
  - done.
Qed.

Lemma relation_created_grants_then_writes_witness :
  exists m',
    _on_relation_created 1 (mkCharm stored_state stored_model)
    = Ok (tt, mkCharm stored_state m')
    /\ log m' = [Grant "secret:" 1;
                 UpdateRelationData 1 (scenario_payload "secret:")]
    /\ has_access m' "secret:" 1 = true.
Proof.
  destruct (relation_created_grants_then_writes
              stored_state stored_model 1 "secret:" eq_refl eq_refl)
    as (Hrun & _).
  destruct (Hrun (mk_is_Some _ _ eq_refl)) as (m' & Heq & Hlog & Hacc & _).
  exists m'. split; [exact Heq|]. split; [exact Hlog|exact Hacc].
Defined.

(** C8: on a legacy relation-created notification handled by the leader the
    legacy-shape payload, with the password of the snapshot in plain and no
    [password_id], is written into that relation; nothing is granted and the
    secret store is left as it was. *)
Theorem legacy_relation_created_writes_plaintext st m r :
  is_leader m = true ->
  exists m',
    _on_legacy_relation_created r (mkCharm st m) = Ok (tt, mkCharm st m')
    /\ log m' = log m ++ [UpdateRelationData r (_get_legacy_smtp_data st)]
    /\ databags m' !! r = Some (_get_legacy_smtp_data st)
    /\ secrets m' = secrets m
    /\ SmtpRelationData.password (_get_legacy_smtp_data st)
       = CharmState.password st
    /\ SmtpRelationData.password_id (_get_legacy_smtp_data st) = None.
Proof.
  intros Hl. rewrite _on_legacy_relation_created_run, Hl.
  eexists. split; [done|]. simpl. split_and!; try done.
  apply lookup_insert_eq.
Qed.

Lemma legacy_relation_created_writes_plaintext_witness :
  exists m',
    _on_legacy_relation_created 2 (mkCharm scenario_state (initial_model true))
    = Ok (tt, mkCharm scenario_state m')
    /\ log m' = [UpdateRelationData 2 scenario_legacy_payload]
    /\ secrets m' = ∅.
Proof.
  destruct (legacy_relation_created_writes_plaintext
              scenario_state (initial_model true) 2 eq_refl)
    as (m' & Heq & Hlog & _ & Hsec & _).
  exists m'. split; [exact Heq|]. split; [exact Hlog|exact Hsec].
Defined.

(** Only the current relation-created handler grants, and only to its own
    relation. *)
Lemma handler_access ev c c' id r :
  handler ev c = Ok (tt, c') ->
  ev ≠ RelationCreatedEvent DEFAULT_RELATION_NAME r ->
  has_access (model c') id r = has_access (model c) id r.
Proof.
  destruct c as [st m]. intros Hrun Hev.
  destruct ev as [[|] r'|]; simpl in Hrun.
  - rewrite _on_relation_created_run in Hrun.
    destruct (is_leader m); [|by injection Hrun as <-].
    destruct (truthy (CharmState.password_id st)) as [id'|];
      [|by injection Hrun as <-].
    destruct (secrets m !! id'); [|done]. injection Hrun as <-.
    simpl. rewrite has_access_with_data. apply has_access_with_grant_ne.
    intros ->. by apply Hev.
  - rewrite _on_legacy_relation_created_run in Hrun.
    injection Hrun as <-. simpl. by destruct (is_leader m).
  - rewrite _on_config_changed_run in Hrun. injection Hrun as <-.
    apply has_access_after_config_changed.
Qed.

Lemma handle_all_access events c id r :
  Forall (fun ev => ev ≠ RelationCreatedEvent DEFAULT_RELATION_NAME r)
         events ->
  has_access (model (handle_all events c)) id r
  = has_access (model c) id r.
Proof.
  intros Hall. revert c.
  induction Hall as [|ev events Hev _ IH]; intros c; [done|].
  simpl. destruct (handler ev c) as [[[] c']|e] eqn:Hrun.
  - rewrite IH. by eapply handler_access.
  - apply IH.
Qed.

(** ** Reactions of a unit *)

Section Reactions.
Context {Config : Type}.
Variable from_charm : Config -> CharmState.t + string.

Lemma dispatch_access config ev m m' id r :
  dispatch from_charm config ev m = Ok m' ->
  ev ≠ RelationCreatedEvent DEFAULT_RELATION_NAME r ->
  has_access m' id r = has_access m id r.
Proof.
  intros Hrun Hev. destruct (from_charm config) as [st|msg] eqn:Hst.
  - rewrite (dispatch_valid _ _ _ _ _ Hst) in Hrun.
    destruct (handler ev (mkCharm st m)) as [[[] c']|e] eqn:Hh; [|done].
    injection Hrun as <-. by apply (handler_access ev (mkCharm st m)).
  - rewrite (dispatch_invalid _ _ _ _ _ Hst) in Hrun. by injection Hrun as <-.
Qed.

Lemma run_access hooks m id r :
  Forall (fun h => h.2 ≠ RelationCreatedEvent DEFAULT_RELATION_NAME r)
         hooks ->
  has_access (run from_charm hooks m) id r = has_access m id r.
Proof.
  intros Hall. revert m.
  induction Hall as [|[config ev] hooks Hev _ IH]; intros m; [done|].
  simpl. destruct (dispatch from_charm config ev m) as [m'|e] eqn:Hrun.
  - rewrite IH. by eapply dispatch_access.
  - apply IH.
Qed.

Lemma run_invalid config msg hooks m :
  from_charm config = inr msg ->
  Forall (fun h => h.1 = config) hooks ->
  run from_charm hooks (with_status (BlockedStatus msg) m)
  = with_status (BlockedStatus msg) m.
Proof.
  intros Hst Hall.
  induction Hall as [|[config' ev] hooks Hc _ IH]; [done|].
  simpl in Hc. subst config'. simpl.
  by rewrite (dispatch_invalid _ _ _ _ _ Hst).
Qed.

(** C3: when the validator rejects the configuration with a message, the
    reaction sets the blocked status with that message and does nothing
    else, and so does every later reaction while the configuration stays
    the same: no relation is written, no secret created or granted. *)
Theorem invalid_config_blocks config msg ev hooks m :
  from_charm config = inr msg ->
  Forall (fun h => h.1 = config) hooks ->
  dispatch from_charm config ev m = Ok (with_status (BlockedStatus msg) m)
  /\ let m' := run from_charm ((config, ev) :: hooks) m in
     unit_status m' = BlockedStatus msg
     /\ log m' = log m
     /\ databags m' = databags m
     /\ secrets m' = secrets m.
Proof.
  intros Hst Hall. split; [by apply dispatch_invalid|].
  simpl. rewrite (dispatch_invalid _ _ _ _ _ Hst).
  by rewrite (run_invalid _ _ _ _ Hst Hall).
Qed.

(** C4: whatever the notification, a unit that is not the leader writes no
    relation data and grants no secret: the databags and the read
    permissions of every secret are as before, and the reaction logs
    neither a write nor a grant. *)
Theorem follower_writes_nothing config ev m :
  is_leader m = false ->
  exists m' delta,
    dispatch from_charm config ev m = Ok m'
    /\ databags m' = databags m
    /\ (forall id r, has_access m' id r = has_access m id r)
    /\ log m' = log m ++ delta
    /\ Forall (fun e => is_write e = false /\ is_grant e = false) delta.
Proof.
  intros Hf. destruct (from_charm config) as [st|msg] eqn:Hst.
  - rewrite (dispatch_valid _ _ _ _ _ Hst).
    destruct ev as [[|] r|]; simpl.
    + rewrite _on_relation_created_run, Hf. exists m, []. simpl.
      by rewrite app_nil_r.
    + rewrite _on_legacy_relation_created_run, Hf. exists m, []. simpl.
      by rewrite app_nil_r.
    + rewrite _on_config_changed_run. simpl.
      exists (after_config_changed st m).2, (creation_effects st m).
      split; [done|].
      split; [by apply after_config_changed_databags_follower|].
      split; [intros; apply has_access_after_config_changed|].
      split.
      * rewrite after_config_changed_log. unfold update_effects.
        by rewrite Hf, app_nil_r.
      * unfold creation_effects.
        destruct (truthy (CharmState.password st)); repeat constructor.
  - rewrite (dispatch_invalid _ _ _ _ _ Hst).
    exists (with_status (BlockedStatus msg) m), []. simpl.
    by rewrite app_nil_r.
Qed.

(** C1: the scenario.  With the snapshot of the scenario's configuration a
    configuration-changed reaction on the leader creates one secret, new to
    the store and holding the password, then writes the current-shape
    payload with the new reference into every current relation and the same
    payload with the password in plain, and no reference, into every
    legacy relation. *)
Theorem scenario_on_leader config m :
  from_charm config = inl scenario_state ->
  is_leader m = true ->
  let id := next_secret_id m in
  exists m',
    dispatch from_charm config ConfigChangedEvent m = Ok m'
    /\ secrets m !! id = None
    /\ secrets m' = <[id := mkSecret [("password", "p")] ∅]> (secrets m)
    /\ log m'
       = log m
           ++ AddSecret id [("password", "p")]
           :: ((fun r => UpdateRelationData r (scenario_payload id))
                 <$> smtp_relations m)
           ++ ((fun r => UpdateRelationData r scenario_legacy_payload)
                 <$> smtp_legacy_relations m)
    /\ (forall r, r ∈ smtp_relations m -> r ∉ smtp_legacy_relations m ->
          databags m' !! r = Some (scenario_payload id))
    /\ (forall r, r ∈ smtp_legacy_relations m ->
          databags m' !! r = Some scenario_legacy_payload)
    /\ unit_status m' = ActiveStatus.
Proof.
  intros Hst Hl id. rewrite (dispatch_valid _ _ _ _ _ Hst). simpl.
  rewrite _on_config_changed_run. simpl.
  exists (after_config_changed scenario_state m).2.
  split; [done|]. split; [apply next_secret_id_fresh|].
  rewrite after_config_changed_secrets, after_config_changed_log.
  unfold update_effects. rewrite Hl.
  split; [done|]. split; [done|].
  split_and!; try done.
  - intros r Hr Hnot. rewrite after_config_changed_lookup_leader by done.
    by rewrite decide_False, decide_True.
  - intros r Hr. rewrite after_config_changed_lookup_leader by done.
    by rewrite decide_True.
Qed.

(** C9: a configuration-changed reaction grants nothing.  So a current
    relation that exists when the leader first stores the password is
    written a payload with the new reference, yet has no read access to
    the new secret at the end of the reaction, nor after any later
    reactions other than a current relation-created notification for that
    relation, the only handler that grants; this holds whether the later
    notifications reach a charm built anew for each of them or the same
    instance. *)
Theorem config_changed_never_grants st m :
  (exists st' m',
     _on_config_changed (mkCharm st m) = Ok (tt, mkCharm st' m')
     /\ Forall (fun e => is_grant e = false)
               (effects_of _on_config_changed (mkCharm st m))
     /\ (forall id r, has_access m' id r = has_access m id r))
  /\ (forall p r (hooks : list (Config * Event)) (events : list Event),
        is_leader m = true ->
        truthy (CharmState.password st) = Some p ->
        r ∈ smtp_relations m ->
        Forall (fun h => h.2 ≠ RelationCreatedEvent DEFAULT_RELATION_NAME r)
               hooks ->
        Forall (fun ev => ev ≠ RelationCreatedEvent DEFAULT_RELATION_NAME r)
               events ->
        let id := next_secret_id m in
        let st' := (after_config_changed st m).1 in
        let m' := (after_config_changed st m).2 in
        secrets m !! id = None
        /\ secrets m' !! id = Some (mkSecret [("password", p)] ∅)
        /\ UpdateRelationData r (_get_smtp_data st')
           ∈ effects_of _on_config_changed (mkCharm st m)
        /\ SmtpRelationData.password_id (_get_smtp_data st') = Some id
        /\ has_access m' id r = false
        /\ has_access (run from_charm hooks m') id r = false
        /\ has_access (model (handle_all events (mkCharm st' m'))) id r
           = false).
Proof.
  split.
  - rewrite _on_config_changed_run. do 2 eexists. split; [done|].
    split; [|intros; apply has_access_after_config_changed].
    rewrite effects_of_on_config_changed. apply Forall_app. split.
    + unfold creation_effects.
      destruct (truthy (CharmState.password st)); repeat constructor.
    + apply Forall_forall. intros e He.
      by apply update_effects_writes in He as (r & [[_ ->]|[_ ->]]).
  - intros p r hooks events Hl Hp Hr Hall Hevs. cbv zeta.
    assert (Hnone : has_access m (next_secret_id m) r = false).
    { unfold has_access. by rewrite next_secret_id_fresh. }
    rewrite (run_access _ _ _ _ Hall), (handle_all_access _ _ _ _ Hevs).
    cbn [model]. rewrite has_access_after_config_changed.
    rewrite after_config_changed_secrets, after_config_changed_state,
      effects_of_on_config_changed.
    unfold after_store, update_effects. rewrite Hp, Hl. simpl.
    split_and!; try done.
    + apply next_secret_id_fresh.
    + apply lookup_insert_eq.
    + apply elem_of_app. right. apply elem_of_app. left.
      by apply (list_elem_of_fmap_2 (fun r => UpdateRelationData r _)).
Qed.
End Reactions.

(** ** The theorems at the fixtures *)

Lemma scenario_on_leader_witness :
  exists m',
    dispatch from_charm_spec scenario_config ConfigChangedEvent
      (initial_model true) = Ok m'
    /\ log m'
       = [AddSecret "secret:" [("password", "p")];
          UpdateRelationData 1 (scenario_payload "secret:");
          UpdateRelationData 2 scenario_legacy_payload]
    /\ databags m' !! 1%nat = Some (scenario_payload "secret:")
    /\ databags m' !! 2%nat = Some scenario_legacy_payload.
Proof.
  destruct (scenario_on_leader from_charm_spec scenario_config
              (initial_model true) eq_refl eq_refl)
    as (m' & Hrun & _ & _ & Hlog & Hcur & Hleg & _).
  exists m'. split; [exact Hrun|]. split; [exact Hlog|]. split.
  - apply Hcur; simpl.
    + apply list_elem_of_here.
    + intros Hin. apply list_elem_of_singleton in Hin. discriminate Hin.
  - apply Hleg; simpl. apply list_elem_of_here.
Defined.

Lemma invalid_config_blocks_witness :
  let m' :=
    run from_charm_spec
      [(port_99999_config, ConfigChangedEvent);
       (port_99999_config, RelationCreatedEvent DEFAULT_RELATION_NAME 1);
       (port_99999_config, RelationCreatedEvent LEGACY_RELATION_NAME 2)]
      (initial_model true) in
  unit_status m' = BlockedStatus "invalid configuration: port"
  /\ log m' = []
  /\ databags m' = ∅
  /\ secrets m' = ∅.
Proof.
  apply (invalid_config_blocks from_charm_spec port_99999_config
           "invalid configuration: port" ConfigChangedEvent
           [(port_99999_config, RelationCreatedEvent DEFAULT_RELATION_NAME 1);
            (port_99999_config, RelationCreatedEvent LEGACY_RELATION_NAME 2)]
           (initial_model true)).
  - reflexivity.
  - repeat constructor.
Defined.

Lemma follower_writes_nothing_witness :
  exists m',
    dispatch from_charm_spec scenario_config ConfigChangedEvent
      (initial_model false) = Ok m'
    /\ databags m' = ∅
    /\ has_access m' "secret:" 1 = false.
Proof.
  destruct (follower_writes_nothing from_charm_spec scenario_config
              ConfigChangedEvent (initial_model false) eq_refl)
    as (m' & delta & Hrun & Hbags & Hacc & _).
  exists m'. split; [exact Hrun|]. split; [exact Hbags|].
  rewrite Hacc. reflexivity.
Defined.

Lemma config_changed_never_grants_witness :
  let st' := (after_config_changed scenario_state (initial_model true)).1 in
  let m' := (after_config_changed scenario_state (initial_model true)).2 in
  databags m' !! 1%nat = Some (scenario_payload "secret:")
  /\ has_access m' "secret:" 1 = false
  /\ has_access
       (run from_charm_spec
          [(scenario_config, ConfigChangedEvent);
           (scenario_config, RelationCreatedEvent LEGACY_RELATION_NAME 2);
           (scenario_config, RelationCreatedEvent DEFAULT_RELATION_NAME 3)]
          m')
       "secret:" 1 = false
  /\ has_access
       (model
          (handle_all
             [RelationCreatedEvent DEFAULT_RELATION_NAME 3;
              ConfigChangedEvent]
             (mkCharm st' m')))
       "secret:" 1 = false.
Proof.
  destruct (config_changed_never_grants from_charm_spec scenario_state
              (initial_model true)) as [_ H].
  destruct (H "p" 1%nat
              [(scenario_config, ConfigChangedEvent);
               (scenario_config, RelationCreatedEvent LEGACY_RELATION_NAME 2);
               (scenario_config,
                RelationCreatedEvent DEFAULT_RELATION_NAME 3)]
              [RelationCreatedEvent DEFAULT_RELATION_NAME 3;
               ConfigChangedEvent]
              eq_refl eq_refl)
    as (_ & _ & _ & _ & Hnow & Hlater & Hsame).
  - apply list_elem_of_here.
  - repeat constructor; simpl; discriminate.
  - repeat constructor; discriminate.
  - split; [reflexivity|]. split; [exact Hnow|].
    split; [exact Hlater|exact Hsame].
Defined.

(** Across reactions too: the snapshot is rebuilt for every notification, so
    under an unchanged configuration the second configuration-changed
    reaction stores the same password as a second secret. *)
Example second_reaction_creates_second_secret :
  let m' :=
    run from_charm_spec
      [(scenario_config, ConfigChangedEvent);
       (scenario_config, ConfigChangedEvent)]
      (initial_model true) in
  filter (fun e => is_creation e = true) (log m')
  = [AddSecret "secret:" [("password", "p")];
     AddSecret "secret:0" [("password", "p")]].
Proof. vm_compute. reflexivity. Qed.

(** With a reference to a secret the store does not have, the current
    relation-created handler raises and writes nothing. *)
Example relation_created_dangling_reference :
  _on_relation_created 1 (mkCharm stored_state (initial_model true))
  = Raise (SecretNotFoundError "secret:").
Proof. reflexivity. Qed.

(** * Further properties of the handlers *)

Lemma truthy_None o : truthy o = None <-> o = None \/ o = Some "".
Proof.
  unfold truthy. destruct o as [s|]; [|by split; [left|]].
  destruct (decide (s = "")) as [->|Hne]; split; try done.
  - by right.
  - intros [?|[= ?]]; done.
Qed.

(** ** Edge cases of the truth tests *)

(** X1: on the leader, a current relation-created notification with no
    secret reference in the snapshot ([None] or the empty string) looks
    nothing up and grants nothing: it returns whatever the store holds, and
    its only effect is the write of the current-shape payload, whose
    [password_id] is that of the snapshot. *)
Theorem relation_created_without_reference st m r :
  is_leader m = true ->
  CharmState.password_id st = None \/ CharmState.password_id st = Some "" ->
  exists m',
    _on_relation_created r (mkCharm st m) = Ok (tt, mkCharm st m')
    /\ log m' = log m ++ [UpdateRelationData r (_get_smtp_data st)]
    /\ secrets m' = secrets m
    /\ databags m' = <[r := _get_smtp_data st]> (databags m)
    /\ unit_status m' = unit_status m
    /\ SmtpRelationData.password_id (_get_smtp_data st)
       = CharmState.password_id st.
Proof.
  intros Hl Hid. apply truthy_None in Hid.
  rewrite _on_relation_created_run, Hl, Hid. by eexists.
Qed.

Lemma relation_created_without_reference_witness :
  exists m',
    _on_relation_created 1
      (mkCharm (CharmState.set_password_id (Some "") scenario_state)
               stored_model)
    = Ok (tt, mkCharm (CharmState.set_password_id (Some "") scenario_state)
                      m')
    /\ secrets m' = secrets stored_model
    /\ has_access m' "secret:" 1 = false.
Proof.
  destruct (relation_created_without_reference
              (CharmState.set_password_id (Some "") scenario_state)
              stored_model 1 eq_refl (or_intror eq_refl))
    as (m' & Hrun & _ & Hsec & _).
  exists m'. split; [exact Hrun|]. split; [exact Hsec|].
  unfold has_access. rewrite Hsec. reflexivity.
Defined.


(** X3: a configuration-changed reaction with no password in the snapshot
    ([None] or the empty string) creates nothing: the snapshot and the secret
    store are as before, the relations are still rewritten on the leader
    (with whatever reference the snapshot already has), and the status ends
    active. *)
Theorem config_changed_without_password st m :
  CharmState.password st = None \/ CharmState.password st = Some "" ->
  exists m',
    _on_config_changed (mkCharm st m) = Ok (tt, mkCharm st m')
    /\ secrets m' = secrets m
    /\ log m' = log m ++ update_effects st m
    /\ unit_status m' = ActiveStatus.
Proof.
  intros Hp. apply truthy_None in Hp.
  rewrite _on_config_changed_run, after_config_changed_eq.
  assert (Hs : after_store st m = (st, m))
    by (unfold after_store; by rewrite Hp).
  rewrite Hs. cbn [fst snd]. eexists. split; [done|]. simpl.
  by rewrite after_update_secrets, after_update_log.
Qed.

Lemma config_changed_without_password_witness :
  exists m',
    _on_config_changed
      (mkCharm
         {| CharmState.host := "smtp.example.com"; CharmState.port := 25;
            CharmState.user := None; CharmState.password := Some "";
            CharmState.password_id := None;
            CharmState.auth_type := "none";
            CharmState.transport_security := "none";
            CharmState.domain := None |}
         (initial_model true))
    = Ok (tt,
          mkCharm
            {| CharmState.host := "smtp.example.com"; CharmState.port := 25;
               CharmState.user := None; CharmState.password := Some "";
               CharmState.password_id := None;
               CharmState.auth_type := "none";
               CharmState.transport_security := "none";
               CharmState.domain := None |}
            m')
    /\ secrets m' = ∅.
Proof.
  destruct (config_changed_without_password
              {| CharmState.host := "smtp.example.com"; CharmState.port := 25;
                 CharmState.user := None; CharmState.password := Some "";
                 CharmState.password_id := None;
                 CharmState.auth_type := "none";
                 CharmState.transport_security := "none";
                 CharmState.domain := None |}
              (initial_model true) (or_intror eq_refl))
    as (m' & Hrun & Hsec & _).
  exists m'. split; [exact Hrun|exact Hsec].
Defined.

(** ** What the handlers leave alone *)

Lemma after_update_lookup st m r :
  databags (after_update st m) !! r
  = if is_leader m then
      if decide (r ∈ smtp_legacy_relations m)
      then Some (_get_legacy_smtp_data st)
      else if decide (r ∈ smtp_relations m)
      then Some (_get_smtp_data st)
      else databags m !! r
    else databags m !! r.
Proof.
  unfold after_update. destruct (is_leader m); [|done].
  by rewrite !with_data_all_lookup.
Qed.

Lemma after_update_frame st m :
  is_leader (after_update st m) = is_leader m
  /\ smtp_relations (after_update st m) = smtp_relations m
  /\ smtp_legacy_relations (after_update st m) = smtp_legacy_relations m
  /\ unit_status (after_update st m) = unit_status m.
Proof.
  unfold after_update. destruct (is_leader m) eqn:Hl; [|done].
  by rewrite !with_data_all_is_leader, !with_data_all_smtp_relations,
    !with_data_all_smtp_legacy_relations, !with_data_all_unit_status.
Qed.

(** X4: rewriting the relations is idempotent.  A second
    [_update_relations] on the same snapshot returns with the databags, the
    secret store and the status exactly as the first left them. *)
Theorem update_relations_idempotent st m :
  exists m1 m2,
    _update_relations (mkCharm st m) = Ok (tt, mkCharm st m1)
    /\ _update_relations (mkCharm st m1) = Ok (tt, mkCharm st m2)
    /\ databags m2 = databags m1
    /\ secrets m2 = secrets m1
    /\ unit_status m2 = unit_status m1.
Proof.
  exists (after_update st m), (after_update st (after_update st m)).
  rewrite !_update_relations_run. split; [done|]. split; [done|].
  destruct (after_update_frame st m) as (Hl & Hr & Hg & _).
  destruct (after_update_frame st (after_update st m)) as (_ & _ & _ & Hs).
  split_and!; [|by rewrite !after_update_secrets|done].
  apply map_eq. intros r. rewrite (after_update_lookup st (after_update _ _)).
  rewrite Hl, Hr, Hg, (after_update_lookup st m).
  destruct (is_leader m); [|done].
  by destruct (decide (r ∈ smtp_legacy_relations m)),
              (decide (r ∈ smtp_relations m)).
Qed.

(** X5: a handler writes only the databags it is meant to.  The databag of
    a relation other than the event's relation (for a relation event), or
    listed on neither endpoint (for a configuration change), is as before;
    so are the relation lists and the leadership. *)
Theorem handler_writes_only_its_relations ev c c' r :
  handler ev c = Ok (tt, c') ->
  r ∉ written_by ev (model c) ->
  databags (model c') !! r = databags (model c) !! r
  /\ smtp_relations (model c') = smtp_relations (model c)
  /\ smtp_legacy_relations (model c') = smtp_legacy_relations (model c)
  /\ is_leader (model c') = is_leader (model c).
Proof.
  destruct c as [st m]. intros Hrun Hr.
  destruct ev as [[|] r'|]; simpl in Hrun, Hr.
  - apply not_elem_of_cons in Hr as [Hne _].
    rewrite _on_relation_created_run in Hrun.
    destruct (is_leader m) eqn:Hl; [|by injection Hrun as <-].
    destruct (truthy (CharmState.password_id st)) as [id|].
    + destruct (secrets m !! id); [|done]. injection Hrun as <-. simpl.
      by rewrite lookup_insert_ne.
    + injection Hrun as <-. simpl. by rewrite lookup_insert_ne.
  - apply not_elem_of_cons in Hr as [Hne _].
    rewrite _on_legacy_relation_created_run in Hrun. injection Hrun as <-.
    destruct (is_leader m) eqn:Hl; [|done]. simpl.
    by rewrite lookup_insert_ne.
  - apply not_elem_of_app in Hr as [Hcur Hleg].
    rewrite _on_config_changed_run, after_config_changed_eq in Hrun.
    injection Hrun as <-. cbn [model snd]. simpl.
    destruct (after_store_frame st m) as (Hl & Hrel & Hg & Hd & _).
    destruct (after_update_frame (after_store st m).1 (after_store st m).2)
      as (Hl' & Hrel' & Hg' & _).
    rewrite after_update_lookup, Hl, Hrel, Hg, Hd, Hl', Hrel', Hg'.
    split_and!; try done.
    destruct (is_leader m); [|done]. by rewrite !decide_False.
Qed.

Lemma handler_writes_only_its_relations_witness :
  databags (after_config_changed scenario_state (initial_model true)).2
    !! 7%nat = None.
Proof.
  destruct (handler_writes_only_its_relations ConfigChangedEvent
              (mkCharm scenario_state (initial_model true))
              (mkCharm (after_config_changed scenario_state
                          (initial_model true)).1
                       (after_config_changed scenario_state
                          (initial_model true)).2)
              7%nat (_on_config_changed_run _ _)) as (Hbag & _).
  - simpl. intros Hin. repeat (apply elem_of_cons in Hin as [Hin|Hin];
      [discriminate Hin|]). by apply elem_of_nil in Hin.
  - exact Hbag.
Defined.

(** ** Granting *)

(** X6: what a successful grant changes.  After the leader handled a current
    relation-created notification with a reference to a secret of the store,
    a relation may read a secret exactly when it could before or it is this
    relation and this secret; no secret is added or removed and no content
    changes. *)
Theorem relation_created_access_exact st m r id :
  is_leader m = true ->
  truthy (CharmState.password_id st) = Some id ->
  is_Some (secrets m !! id) ->
  exists m',
    _on_relation_created r (mkCharm st m) = Ok (tt, mkCharm st m')
    /\ (forall id' r',
          has_access m' id' r'
          = has_access m id' r' || bool_decide (id' = id /\ r' = r))
    /\ (forall id',
          secret_content <$> secrets m' !! id'
          = secret_content <$> secrets m !! id').
Proof.
  intros Hl Hid [s Hs]. rewrite _on_relation_created_run, Hl, Hid, Hs.
  eexists. split; [done|]. split.
  - intros id' r'. rewrite has_access_with_data.
    unfold has_access; simpl. rewrite lookup_alter.
    destruct (decide (id = id')) as [<-|Hne].
    + rewrite Hs. simpl.
      destruct (decide (r' = r)) as [->|Hr].
      * rewrite (bool_decide_eq_true_2 (_ /\ _)) by done.
        rewrite orb_true_r. apply bool_decide_eq_true.
        apply elem_of_union_l. by apply elem_of_singleton.
      * rewrite (bool_decide_eq_false_2 (_ /\ _)) by (by intros [_ ?]).
        rewrite orb_false_r. apply bool_decide_ext.
        rewrite elem_of_union, elem_of_singleton.
        split; [by intros [?|?]|by right].
    + rewrite (bool_decide_eq_false_2 (_ /\ _)) by (by intros [-> _]).
      by rewrite orb_false_r.
  - intros id'. simpl. rewrite lookup_alter.
    destruct (decide (id = id')) as [<-|Hne]; [|done].
    by rewrite Hs.
Qed.

Lemma relation_created_access_exact_witness :
  exists m',
    _on_relation_created 1 (mkCharm stored_state stored_model)
    = Ok (tt, mkCharm stored_state m')
    /\ has_access m' "secret:" 1 = true
    /\ has_access m' "secret:" 2 = false.
Proof.
  destruct (relation_created_access_exact stored_state stored_model 1
              "secret:" eq_refl eq_refl (mk_is_Some _ _ eq_refl))
    as (m' & Hrun & Hacc & _).
  exists m'. split; [exact Hrun|]. rewrite !Hacc. split; reflexivity.
Defined.

Lemma grant_to_idemp r s : grant_to r (grant_to r s) = grant_to r s.
Proof.
  unfold grant_to; simpl. f_equal.
  by rewrite (assoc_L (∪)), (idemp_L (∪)).
Qed.

(** X7: delivering a relation-created notification a second time to the
    same instance is harmless.  If the first delivery returned, so does the
    second, and it leaves the secret store (permissions included), the
    databags and the status as the first left them. *)
Theorem relation_created_twice name r st m m1 :
  handler (RelationCreatedEvent name r) (mkCharm st m)
  = Ok (tt, mkCharm st m1) ->
  exists m2,
    handler (RelationCreatedEvent name r) (mkCharm st m1)
    = Ok (tt, mkCharm st m2)
    /\ secrets m2 = secrets m1
    /\ databags m2 = databags m1
    /\ unit_status m2 = unit_status m1.
Proof.
  destruct name; simpl.
  - rewrite !_on_relation_created_run.
    destruct (is_leader m) eqn:Hl.
    + destruct (truthy (CharmState.password_id st)) as [id|].
      * destruct (secrets m !! id) as [s|] eqn:Hs; [|done].
        intros [= <-]. simpl. rewrite Hl, lookup_alter, decide_True, Hs by done.
        simpl. eexists. split; [done|]. simpl. split_and!; try done.
        -- apply map_eq. intros id'. rewrite !lookup_alter.
           destruct (decide (id = id')) as [<-|]; [|done].
           rewrite decide_True, Hs by done. simpl.
           by rewrite grant_to_idemp.
        -- apply insert_insert_eq.
      * intros [= <-]. simpl. rewrite Hl. eexists. split; [done|]. simpl.
        split_and!; try done. apply insert_insert_eq.
    + intros [= <-]. rewrite Hl. by eexists.
  - rewrite !_on_legacy_relation_created_run.
    destruct (is_leader m) eqn:Hl; intros [= <-]; simpl; rewrite Hl.
    + eexists. split; [done|]. simpl. split_and!; try done.
      apply insert_insert_eq.
    + by eexists.
Qed.

Lemma relation_created_twice_witness :
  exists m2,
    handler (RelationCreatedEvent DEFAULT_RELATION_NAME 1)
      (mkCharm stored_state
         (with_data 1 (_get_smtp_data stored_state)
            (with_grant "secret:" 1 stored_model)))
    = Ok (tt, mkCharm stored_state m2)
    /\ has_access m2 "secret:" 1 = true.
Proof.
  destruct (relation_created_twice DEFAULT_RELATION_NAME 1 stored_state
              stored_model
              (with_data 1 (_get_smtp_data stored_state)
                 (with_grant "secret:" 1 stored_model)) eq_refl)
    as (m2 & Hrun & Hsec & _).
  exists m2. split; [exact Hrun|].
  unfold has_access. rewrite Hsec. reflexivity.
Defined.

(** ** Status *)



Lemma run_all_invalid {Config : Type}
    (from_charm : Config -> CharmState.t + string) hooks m :
  Forall (fun h => exists msg, from_charm h.1 = inr msg) hooks ->
  exists s, run from_charm hooks m = with_status s m.
Proof.
  intros Hall. revert m.
  induction Hall as [|[config ev] hooks [msg Hc] _ IH]; intros m.
  - exists (unit_status m). by destruct m.
  - simpl in *. rewrite (dispatch_invalid _ _ _ _ _ Hc).
    destruct (IH (with_status (BlockedStatus msg) m)) as [s ->].
    by exists s.
Qed.

(** X9: recovery.  However many reactions were blocked by invalid
    configurations, the next configuration-changed reaction gives exactly
    the result it would have given had they never happened: the blocked
    stretch leaves nothing behind but the status, which the handler sets
    anew. *)
Theorem blocked_stretch_leaves_no_trace {Config : Type}
    (from_charm : Config -> CharmState.t + string) hooks config m :
  Forall (fun h => exists msg, from_charm h.1 = inr msg) hooks ->
  dispatch from_charm config ConfigChangedEvent (run from_charm hooks m)
  = dispatch from_charm config ConfigChangedEvent m.
Proof.
  intros Hall. destruct (run_all_invalid _ _ m Hall) as [s ->].
  destruct (from_charm config) as [st|msg] eqn:Hst.
  - rewrite !(dispatch_valid _ _ _ _ _ Hst). simpl.
    by rewrite !_on_config_changed_run.
  - by rewrite !(dispatch_invalid _ _ _ _ _ Hst).
Qed.

Lemma blocked_stretch_leaves_no_trace_witness :
  dispatch from_charm_spec scenario_config ConfigChangedEvent
    (run from_charm_spec
       [(port_99999_config, ConfigChangedEvent);
        (port_99999_config, RelationCreatedEvent DEFAULT_RELATION_NAME 1)]
       (initial_model true))
  = Ok (after_config_changed scenario_state (initial_model true)).2.
Proof.
  rewrite (blocked_stretch_leaves_no_trace from_charm_spec
             [(port_99999_config, ConfigChangedEvent);
              (port_99999_config,
               RelationCreatedEvent DEFAULT_RELATION_NAME 1)]
             scenario_config (initial_model true)).
  - reflexivity.
  - repeat constructor; by eexists.
Defined.

(** ** Invariants of every run *)

Lemma update_effects_one_shape st m : Forall one_shape (update_effects st m).
Proof.
  apply Forall_forall. intros e He.
  apply update_effects_writes in He as (r & [[_ ->]|[_ ->]]); simpl; auto.
Qed.

Lemma creation_effects_one_shape st m :
  Forall one_shape (creation_effects st m).
Proof.
  unfold creation_effects.
  destruct (truthy (CharmState.password st)); repeat constructor.
Qed.

(** A handler that returns has appended to the log, and what it appended is
    of one shape. *)
Lemma handler_log ev c c' :
  handler ev c = Ok (tt, c') ->
  exists delta,
    log (model c') = log (model c) ++ delta /\ Forall one_shape delta.
Proof.
  destruct c as [st m]. destruct ev as [[|] r|]; simpl.
  - rewrite _on_relation_created_run.
    destruct (is_leader m).
    + destruct (truthy (CharmState.password_id st)) as [id|].
      * destruct (secrets m !! id); [|done]. intros [= <-].
        exists [Grant id r; UpdateRelationData r (_get_smtp_data st)].
        simpl. rewrite <- app_assoc. split; [done|].
        repeat constructor.
      * intros [= <-]. exists [UpdateRelationData r (_get_smtp_data st)].
        split; [done|]. repeat constructor.
    + intros [= <-]. exists []. by rewrite app_nil_r.
  - rewrite _on_legacy_relation_created_run. intros [= <-].
    destruct (is_leader m).
    + exists [UpdateRelationData r (_get_legacy_smtp_data st)].
      split; [done|]. constructor; [by right|constructor].
    + exists []. by rewrite app_nil_r.
  - rewrite _on_config_changed_run. intros [= <-].
    exists (creation_effects st m ++ update_effects (after_store st m).1 m).
    split; [apply after_config_changed_log|].
    apply Forall_app. split.
    + apply creation_effects_one_shape.
    + apply update_effects_one_shape.
Qed.

Lemma dispatch_log {Config : Type}
    (from_charm : Config -> CharmState.t + string) config ev m m' :
  dispatch from_charm config ev m = Ok m' ->
  exists delta, log m' = log m ++ delta /\ Forall one_shape delta.
Proof.
  destruct (from_charm config) as [st|msg] eqn:Hst.
  - rewrite (dispatch_valid _ _ _ _ _ Hst).
    destruct (handler ev (mkCharm st m)) as [[[] c']|e] eqn:Hh; [|done].
    intros [= <-]. apply (handler_log _ _ _ Hh).
  - rewrite (dispatch_invalid _ _ _ _ _ Hst). intros [= <-].
    exists []. by rewrite app_nil_r.
Qed.

(** X10: over any sequence of reactions the log only grows, and no payload
    ever written carries both the password and the secret reference: every
    write added is of the current shape (no password) or of the legacy shape
    (no reference). *)
Theorem payloads_never_mix {Config : Type}
    (from_charm : Config -> CharmState.t + string) hooks m :
  exists delta,
    log (run from_charm hooks m) = log m ++ delta
    /\ Forall one_shape delta.
Proof.
  revert m. induction hooks as [|[config ev] hooks IH]; intros m; simpl.
  - exists []. by rewrite app_nil_r.
  - destruct (dispatch from_charm config ev m) as [m'|e] eqn:Hrun; [|apply IH].
    destruct (dispatch_log _ _ _ _ _ Hrun) as (d1 & Hd1 & Hs1).
    destruct (IH m') as (d2 & Hd2 & Hs2).
    exists (d1 ++ d2). rewrite Hd2, Hd1, <- app_assoc. split; [done|].
    by apply Forall_app.
Qed.

(** A secret that is in the store before a handler runs is there after it,
    with the same content and at least the same readers. *)
Lemma handler_keeps_secrets ev c c' id s :
  handler ev c = Ok (tt, c') ->
  secrets (model c) !! id = Some s ->
  exists s',
    secrets (model c') !! id = Some s'
    /\ secret_content s' = secret_content s
    /\ secret_granted s ⊆ secret_granted s'.
Proof.
  destruct c as [st m]. intros Hrun Hs. simpl in Hs.
  destruct ev as [[|] r|]; simpl in Hrun.
  - rewrite _on_relation_created_run in Hrun.
    destruct (is_leader m); [|injection Hrun as <-; by exists s].
    destruct (truthy (CharmState.password_id st)) as [id'|];
      [|injection Hrun as <-; by exists s].
    destruct (secrets m !! id') eqn:Hid'; [|done]. injection Hrun as <-.
    simpl. rewrite lookup_alter.
    destruct (decide (id' = id)) as [->|Hne]; [|by exists s].
    rewrite Hs. simpl. eexists. split; [done|]. split; [done|].
    simpl. apply union_subseteq_r.
  - rewrite _on_legacy_relation_created_run in Hrun. injection Hrun as <-.
    exists s. by destruct (is_leader m).
  - rewrite _on_config_changed_run in Hrun. injection Hrun as <-.
    change (secrets (model _)) with (secrets (after_config_changed st m).2).
    rewrite after_config_changed_secrets.
    exists s. split; [|done].
    unfold after_store. destruct (truthy (CharmState.password st)); [|done].
    simpl. rewrite lookup_insert_ne; [done|].
    intros Heq. pose proof (next_secret_id_fresh m) as Hfresh.
    rewrite Heq in Hfresh. by rewrite Hfresh in Hs.
Qed.

(** X11: nothing is ever taken away.  Over any sequence of reactions a
    secret of the store stays in the store with its content unchanged, and a
    relation that may read it keeps that permission: the charm never removes
    a secret and never revokes a grant. *)
Theorem secrets_and_grants_persist {Config : Type}
    (from_charm : Config -> CharmState.t + string) hooks m id s :
  secrets m !! id = Some s ->
  exists s',
    secrets (run from_charm hooks m) !! id = Some s'
    /\ secret_content s' = secret_content s
    /\ secret_granted s ⊆ secret_granted s'.
Proof.
  revert m s. induction hooks as [|[config ev] hooks IH]; intros m s Hs.
  - by exists s.
  - simpl. destruct (dispatch from_charm config ev m) as [m'|e] eqn:Hrun;
      [|by apply IH].
    assert (exists s1, secrets m' !! id = Some s1
              /\ secret_content s1 = secret_content s
              /\ secret_granted s ⊆ secret_granted s1)
      as (s1 & Hs1 & Hc1 & Hg1).
    { destruct (from_charm config) as [st|msg] eqn:Hst.
      - rewrite (dispatch_valid _ _ _ _ _ Hst) in Hrun.
        destruct (handler ev (mkCharm st m)) as [[[] c']|e] eqn:Hh; [|done].
        injection Hrun as <-.
        apply (handler_keeps_secrets _ _ _ _ _ Hh Hs).
      - rewrite (dispatch_invalid _ _ _ _ _ Hst) in Hrun.
        injection Hrun as <-. by exists s. }
    destruct (IH m' s1 Hs1) as (s' & Hs' & Hc' & Hg').
    exists s'. split; [done|]. split; [congruence|]. by etrans.
Qed.

Lemma secrets_and_grants_persist_witness :
  has_access
    (run from_charm_spec
       [(scenario_config, ConfigChangedEvent);
        (port_99999_config, ConfigChangedEvent);
        (scenario_config, RelationCreatedEvent DEFAULT_RELATION_NAME 3)]
       (with_grant "secret:" 1 stored_model))
    "secret:" 1 = true.
Proof.
  destruct (secrets_and_grants_persist from_charm_spec
              [(scenario_config, ConfigChangedEvent);
               (port_99999_config, ConfigChangedEvent);
               (scenario_config,
                RelationCreatedEvent DEFAULT_RELATION_NAME 3)]
              (with_grant "secret:" 1 stored_model) "secret:"
              (mkSecret [("password", "p")] {[1%nat]}) eq_refl)
    as (s' & Hs' & _ & Hsub).
  unfold has_access. rewrite Hs'. apply bool_decide_eq_true.
  apply Hsub. simpl. by apply elem_of_singleton.
Defined.

(** X12: secrets pile up.  Every configuration-changed reaction under a
    configuration whose password is present adds one secret to the store, on
    any unit and whatever the store already holds: after [n] such reactions
    the store has [n] more secrets. *)
Theorem secrets_accumulate {Config : Type}
    (from_charm : Config -> CharmState.t + string) config st p n m :
  from_charm config = inl st ->
  truthy (CharmState.password st) = Some p ->
  size (secrets (run from_charm (replicate n (config, ConfigChangedEvent)) m))
  = (size (secrets m) + n)%nat.
Proof.
  intros Hst Hp. revert m. induction n as [|n IH]; intros m; simpl.
  - lia.
  - rewrite (dispatch_valid _ _ _ _ _ Hst). simpl.
    rewrite _on_config_changed_run.
    change (model_of _) with (Ok (after_config_changed st m).2).
    cbv iota beta. rewrite IH, after_config_changed_secrets.
    unfold after_store. rewrite Hp. simpl.
    rewrite map_size_insert_None by apply next_secret_id_fresh. lia.
Qed.

Lemma secrets_accumulate_witness :
  size (secrets
          (run from_charm_spec
             (replicate 3 (scenario_config, ConfigChangedEvent))
             (initial_model false))) = 3%nat.
Proof.
  apply (secrets_accumulate from_charm_spec scenario_config scenario_state
           "p" 3 (initial_model false)); reflexivity.
Defined.

(** ** Configuration changed, then a relation created *)

Lemma fresh_string_prefix {A} (m : stringmap A) s :
  fresh_string s m = s \/ exists t, fresh_string s m = s +:+ t.
Proof.
  unfold fresh_string. destruct (m !! s) as [a|]; [right; clear a|by left].
  generalize 0%N (wf_guard 32 (fresh_string_R_wf s m) 0%N).
  fix FIX 2. intros n [?]; simpl. unfold fresh_string_go at 1; simpl.
  destruct (Some_dec (m !! _)) as [[??]|?]; [apply FIX|eauto].
Qed.

(** The identifier of a new secret is not the empty string. *)
Lemma next_secret_id_truthy m :
  truthy (Some (next_secret_id m)) = Some (next_secret_id m).
Proof.
  apply truthy_Some. split; [done|]. unfold next_secret_id.
  destruct (fresh_string_prefix (secrets m) "secret:") as [->|[t ->]];
    discriminate.
Qed.

(** X13: on one instance the reference stored by a configuration-changed
    reaction reaches the next current relation-created notification: the
    leader grants the new relation read access to the secret just created
    and writes it the payload that carries the new reference. *)
Theorem config_changed_then_relation_created st m p r :
  is_leader m = true ->
  truthy (CharmState.password st) = Some p ->
  let id := next_secret_id m in
  let c :=
    handle_all
      [ConfigChangedEvent; RelationCreatedEvent DEFAULT_RELATION_NAME r]
      (mkCharm st m) in
  CharmState.password_id (_charm_state c) = Some id
  /\ has_access (model c) id r = true
  /\ databags (model c) !! r = Some (_get_smtp_data (_charm_state c))
  /\ drop (length (log m)) (log (model c))
     = AddSecret id [("password", p)]
       :: update_effects (_charm_state c) m
       ++ [Grant id r; UpdateRelationData r (_get_smtp_data (_charm_state c))].
Proof.
  intros Hl Hp. cbv zeta. simpl.
  rewrite _on_config_changed_run, _on_relation_created_run.
  rewrite after_config_changed_eq. cbn [fst snd].
  destruct (after_store_frame st m) as (Hl1 & Hr1 & Hg1 & _).
  destruct (after_update_frame (after_store st m).1 (after_store st m).2)
    as (Hl2 & _).
  assert (Hstore : after_store st m
            = (CharmState.set_password_id (Some (next_secret_id m)) st,
               with_secret (next_secret_id m) [("password", p)] m))
    by (unfold after_store; by rewrite Hp).
  cbn [is_leader with_status]. rewrite Hl2, Hl1, Hl.
  rewrite Hstore in *. cbn [fst snd] in *.
  cbn [CharmState.password_id CharmState.set_password_id].
  rewrite next_secret_id_truthy.
  cbn [secrets with_status]. rewrite after_update_secrets.
  cbn [secrets with_secret]. rewrite lookup_insert_eq.
  cbn [_charm_state model]. split; [done|]. split_and!.
  - rewrite has_access_with_data. apply has_access_with_grant_eq.
    cbn [secrets with_status]. rewrite after_update_secrets. simpl.
    rewrite lookup_insert_eq. by eexists.
  - apply lookup_insert_eq.
  - cbn [log with_data with_grant with_status].
    rewrite after_update_log. cbn [log with_secret].
    rewrite <- !app_assoc. rewrite drop_app_length. done.
Qed.

Lemma config_changed_then_relation_created_witness :
  let c :=
    handle_all
      [ConfigChangedEvent; RelationCreatedEvent DEFAULT_RELATION_NAME 3]
      (mkCharm scenario_state (initial_model true)) in
  has_access (model c) "secret:" 3 = true
  /\ databags (model c) !! 3%nat = Some (scenario_payload "secret:").
Proof.
  destruct (config_changed_then_relation_created scenario_state
              (initial_model true) "p" 3 eq_refl eq_refl)
    as (_ & Hacc & Hbag & _).
  split; [exact Hacc|exact Hbag].
Defined.

(** X14: when the snapshot is built anew for every notification and the
    validator gives it no secret reference, a current relation-created
    reaction on the leader grants nothing and writes a payload without a
    reference, whatever the store holds: the relation can read no secret it
    could not read before, and its databag carries [password_id = None]. *)
Theorem rebuilt_snapshot_has_no_reference {Config : Type}
    (from_charm : Config -> CharmState.t + string) config st r m :
  from_charm config = inl st ->
  CharmState.password_id st = None ->
  is_leader m = true ->
  exists m' d,
    dispatch from_charm config
      (RelationCreatedEvent DEFAULT_RELATION_NAME r) m = Ok m'
    /\ databags m' !! r = Some d
    /\ SmtpRelationData.password_id d = None
    /\ SmtpRelationData.password d = None
    /\ secrets m' = secrets m
    /\ log m' = log m ++ [UpdateRelationData r d].
Proof.
  intros Hst Hid Hl. rewrite (dispatch_valid _ _ _ _ _ Hst). simpl.
  rewrite _on_relation_created_run, Hl, Hid. simpl.
  do 2 eexists. split; [done|]. simpl.
  split; [apply lookup_insert_eq|]. done.
Qed.

Lemma rebuilt_snapshot_has_no_reference_witness :
  exists m' d,
    dispatch from_charm_spec scenario_config
      (RelationCreatedEvent DEFAULT_RELATION_NAME 1) stored_model = Ok m'
    /\ databags m' !! 1%nat = Some d
    /\ SmtpRelationData.password_id d = None
    /\ has_access m' "secret:" 1 = false.
Proof.
  destruct (rebuilt_snapshot_has_no_reference from_charm_spec scenario_config
              scenario_state 1 stored_model eq_refl eq_refl eq_refl)
    as (m' & d & Hrun & Hbag & Hid & _ & Hsec & _).
  exists m', d. split; [exact Hrun|]. split; [exact Hbag|].
  split; [exact Hid|]. unfold has_access. rewrite Hsec. reflexivity.
Defined.

(** ** Relation data after a configuration change *)

(** X15: after a configuration-changed reaction on the leader the relation
    data agree with the snapshot the handler ends with, for any snapshot:
    every legacy relation holds its legacy payload, every other current
    relation its current payload, and that snapshot differs from the initial
    one in [password_id] at most. *)
Theorem config_changed_synchronises_relations st m :
  is_leader m = true ->
  exists st' m',
    _on_config_changed (mkCharm st m) = Ok (tt, mkCharm st' m')
    /\ st' = CharmState.set_password_id (CharmState.password_id st') st
    /\ (forall r, r ∈ smtp_legacy_relations m ->
          databags m' !! r = Some (_get_legacy_smtp_data st'))
    /\ (forall r, r ∈ smtp_relations m -> r ∉ smtp_legacy_relations m ->
          databags m' !! r = Some (_get_smtp_data st')).
Proof.
  intros Hl. rewrite _on_config_changed_run.
  exists (after_config_changed st m).1, (after_config_changed st m).2.
  split; [done|]. rewrite after_config_changed_state. split_and!.
  - unfold after_store.
    destruct (truthy (CharmState.password st)); [done|by destruct st].
  - intros r Hr. rewrite after_config_changed_lookup_leader by done.
    by rewrite decide_True.
  - intros r Hr Hnot. rewrite after_config_changed_lookup_leader by done.
    by rewrite decide_False, decide_True.
Qed.

Lemma config_changed_synchronises_relations_witness :
  exists st' m',
    _on_config_changed (mkCharm stored_state stored_model)
    = Ok (tt, mkCharm st' m')
    /\ databags m' !! 2%nat = Some (_get_legacy_smtp_data st')
    /\ databags m' !! 1%nat = Some (_get_smtp_data st').
Proof.
  destruct (config_changed_synchronises_relations stored_state stored_model
              eq_refl) as (st' & m' & Hrun & _ & Hleg & Hcur).
  exists st', m'. split; [exact Hrun|]. split.
  - apply Hleg. apply list_elem_of_here.
  - apply Hcur; [apply list_elem_of_here|].
    intros Hin. apply list_elem_of_singleton in Hin. discriminate Hin.
Defined.
